(** * Context compression engine: a shallow embedding and its properties

    The development follows the Python sources
    [backend/compressor.py] (class [ContextCompressor]),
    [backend/compress_tf_idf.py] (class [TextCompressor]) and
    [backend/main.py] (the section writers).

    Conventions of the embedding:
    - a Python [str] is a list of Unicode code points ([list N]), so that
      [len] and the CJK range test of the token estimator are exact;
    - a Python [int] is a [Z]; a Python [float] that only carries a ratio
      (retention ratios, [1.5], [0.5]) is an exact rational [Q], and the
      binary64 product is modelled by the exact product;
    - a function that can raise returns a [result];
    - a [dict] with a fixed set of keys is a record of [option] fields,
      read with [default] as the source reads it with [dict.get];
    - the files under the data directory are a finite map from paths to
      file contents. *)

From Stdlib Require Import ZArith QArith Qround List Ascii String Lia.
From Stdlib Require Import Sorted Permutation.
From stdpp Require Import base option list gmap strings.

Local Open Scope Z_scope.

Set Warnings "-register-all".

(** ** Python strings *)

Abbreviation pystr := (list N).

Definition lit (s : string) : pystr :=
  map N_of_ascii (list_ascii_of_string s).

(** The double quote character, which string literals here never spell. *)
Definition dq : pystr := [34%N].

(** Exceptions the modelled code paths can raise. *)
Inductive exn : Type :=
  | UnboundLocalError
  | AttributeError
  | TypeError
  | IndexError
  | ZeroDivisionError
  | JSONDecodeError
  | OtherError (msg : pystr).

Inductive result (A : Type) : Type :=
  | Ok (a : A)
  | Raise (e : exn).
Arguments Ok {A} a.
Arguments Raise {A} e.

Definition rbind {A B} (m : result A) (f : A -> result B) : result B :=
  match m with
  | Ok a => f a
  | Raise e => Raise e
  end.

#[global] Instance result_bind : MBind result := fun A B f m => rbind m f.
#[global] Instance result_ret : MRet result := @Ok.

(** [try: m except Exception: h]. *)
Definition try_except {A} (m : result A) (h : exn -> result A) : result A :=
  match m with
  | Ok a => Ok a
  | Raise e => h e
  end.

(** [str.isspace] on one code point. *)
Definition is_space (c : N) : bool :=
  ((9 <=? c) && (c <=? 13) || (28 <=? c) && (c <=? 32) ||
   (c =? 0x85) || (c =? 0xa0) || (c =? 0x1680) ||
   (0x2000 <=? c) && (c <=? 0x200a) || (c =? 0x2028) || (c =? 0x2029) ||
   (c =? 0x202f) || (c =? 0x205f) || (c =? 0x3000))%N.

Fixpoint lstrip (s : pystr) : pystr :=
  match s with
  | c :: s' => if is_space c then lstrip s' else s
  | [] => []
  end.

Definition rstrip (s : pystr) : pystr := rev (lstrip (rev s)).

(** [s.strip()] *)
Definition strip (s : pystr) : pystr := rstrip (lstrip s).

(** [s.startswith(p)] *)
Fixpoint startswith (p s : pystr) : bool :=
  match p, s with
  | [], _ => true
  | a :: p', b :: s' => (a =? b)%N && startswith p' s'
  | _ :: _, [] => false
  end.

(** [s.find(sub)], counted from offset [i] of the original string. *)
Fixpoint find_from (sub s : pystr) (i : Z) : Z :=
  if startswith sub s then i
  else match s with
       | [] => -1
       | _ :: s' => find_from sub s' (i + 1)
       end.

Definition find (sub s : pystr) : Z := find_from sub s 0.

(** [sub in s] *)
Definition contains (sub s : pystr) : bool := negb (find sub s =? -1).

(** Python slice bounds: a negative index counts from the end, and both
    ends are clipped to the sequence. *)
Definition clip_index (len i : Z) : Z :=
  if i <? 0 then Z.max 0 (i + len) else Z.min i len.

(** [s[a:b]] *)
Definition py_slice {A} (s : list A) (a b : Z) : list A :=
  let n := Z.of_nat (length s) in
  let a' := clip_index n a in
  let b' := clip_index n b in
  take (Z.to_nat (b' - a')) (drop (Z.to_nat a') s).

(** [s[:b]] and [s[a:]] *)
Definition py_slice_to {A} (s : list A) (b : Z) : list A := py_slice s 0 b.
Definition py_slice_from {A} (s : list A) (a : Z) : list A :=
  py_slice s a (Z.of_nat (length s)).

(** [sep.join(parts)] *)
Fixpoint join (sep : pystr) (parts : list pystr) : pystr :=
  match parts with
  | [] => []
  | [p] => p
  | p :: rest => p ++ sep ++ join sep rest
  end.

(** [s.replace(old, new)] for a non-empty [old]: occurrences are replaced
    from left to right and do not overlap; [skip] counts the characters
    of the occurrence just replaced that are still to be passed over. *)
Fixpoint replace_aux (old new : pystr) (skip : nat) (s : pystr) : pystr :=
  match s with
  | [] => []
  | c :: s' =>
      match skip with
      | S k => replace_aux old new k s'
      | O =>
          if startswith old s
          then new ++ replace_aux old new (length old - 1) s'
          else c :: replace_aux old new 0 s'
      end
  end.

Definition replace (old new s : pystr) : pystr := replace_aux old new 0 s.

(** [str(n)] of an [int]. *)
Definition digit_char (d : Z) : N := Z.to_N (48 + d).

Fixpoint pos_digits (fuel : nat) (n : Z) (acc : pystr) : pystr :=
  match fuel with
  | O => acc
  | S f =>
      if n <? 10 then digit_char n :: acc
      else pos_digits f (n / 10) (digit_char (n mod 10) :: acc)
  end.

Definition str_of_int (n : Z) : pystr :=
  if n <? 0 then 45%N :: pos_digits (Z.to_nat (Z.log2 (- n)) + 1) (- n) []
  else pos_digits (Z.to_nat (Z.log2 n) + 1) n [].

(** [int(x)] of a float: truncation toward zero. *)
Definition py_int (q : Q) : Z := Z.quot (Qnum q) (Z.pos (Qden q)).

(** ** Token estimator ([ContextCompressor.count_tokens]) *)

Definition is_cjk (c : N) : bool := ((0x4e00 <=? c) && (c <=? 0x9fff))%N.

Definition is_ascii_letter (c : N) : bool :=
  ((97 <=? c) && (c <=? 122) || (65 <=? c) && (c <=? 90))%N.

Definition is_ascii_digit (c : N) : bool := ((48 <=? c) && (c <=? 57))%N.

(** [re.findall] of the one-character class of CJK unified ideographs
    (code points 4e00 to 9fff): one match per character of the class. *)
Definition findall_cjk (text : pystr) : list pystr :=
  map (fun c => [c]) (filter (fun c => Is_true (is_cjk c)) text).

(** The pattern [\b[a-zA-Z]+\b] run by [re.findall], as the one-pass
    automaton of that regular expression.  [\b] holds between a word
    character and a non-word character or an end of the text, and every
    ASCII letter is a word character, so a match is a maximal run of ASCII
    letters with no word character on either side.

    [word_char] is [\w]; [prev] tells whether the previous character was
    a word character; [cur] is the run of letters read since a boundary
    (most recent first), or [None] when the characters read since the last
    non-word character cannot start a match. *)
Fixpoint findall_words (word_char : N -> bool) (prev : bool)
    (cur : option pystr) (text : pystr) : list pystr :=
  match text with
  | [] =>
      match cur with
      | Some acc => [rev acc]
      | None => []
      end
  | c :: rest =>
      if is_ascii_letter c then
        match cur with
        | Some acc => findall_words word_char true (Some (c :: acc)) rest
        | None =>
            if prev then findall_words word_char true None rest
            else findall_words word_char true (Some [c]) rest
        end
      else if word_char c then findall_words word_char true None rest
      else
        match cur with
        | Some acc => rev acc :: findall_words word_char false None rest
        | None => findall_words word_char false None rest
        end
  end.

(** [sum(len(word) for word in words)] *)
Definition sum_len (words : list pystr) : Z :=
  foldr (fun w n => Z.of_nat (length w) + n) 0 words.

(** ** JSON values, [json.dumps] and [json.loads] *)

(** A value [json.loads] can return.  A float is carried by the text
    Python prints for it, which is all the modelled code does with one.
    An object keeps its keys in insertion order, as a Python [dict]. *)
Inductive json : Type :=
  | JNull
  | JBool (b : bool)
  | JInt (n : Z)
  | JFloat (repr : pystr)
  | JStr (s : pystr)
  | JArr (items : list json)
  | JObj (fields : list (pystr * json)).

Definition hex_digit (d : N) : N := (if d <? 10 then 48 + d else 87 + d)%N.

(** The escapes of [json.dumps(..., ensure_ascii=False)]. *)
Definition escape_char (c : N) : pystr :=
  if (c =? 34)%N then [92; 34]%N
  else if (c =? 92)%N then [92; 92]%N
  else if (c =? 10)%N then lit "\n"
  else if (c =? 13)%N then lit "\r"
  else if (c =? 9)%N then lit "\t"
  else if (c =? 8)%N then lit "\b"
  else if (c =? 12)%N then lit "\f"
  else if (c <? 32)%N then lit "\u00" ++ [hex_digit (c / 16); hex_digit (c mod 16)]%N
  else [c].

Definition dumps_str (s : pystr) : pystr :=
  dq ++ concat (map escape_char s) ++ dq.

(** [json.dumps(v, ensure_ascii=False)] with the default separators. *)
Fixpoint dumps (v : json) : pystr :=
  match v with
  | JNull => lit "null"
  | JBool true => lit "true"
  | JBool false => lit "false"
  | JInt n => str_of_int n
  | JFloat r => r
  | JStr s => dumps_str s
  | JArr items => lit "[" ++ join (lit ", ") (map dumps items) ++ lit "]"
  | JObj fields =>
      lit "{" ++
      join (lit ", ")
        (map (fun kv => match kv with
                        | (k, x) => dumps_str k ++ lit ": " ++ dumps x
                        end) fields) ++
      lit "}"
  end.

(** [d.get(key)] on the fields of an object. *)
Fixpoint obj_get (key : pystr) (fields : list (pystr * json)) : option json :=
  match fields with
  | [] => None
  | (k, v) :: rest => if decide (k = key) then Some v else obj_get key rest
  end.

(** [d[key] = v]: an existing key keeps its position. *)
Fixpoint obj_set (key : pystr) (v : json) (fields : list (pystr * json))
    : list (pystr * json) :=
  match fields with
  | [] => [(key, v)]
  | (k, x) :: rest =>
      if decide (k = key) then (k, v) :: rest else (k, x) :: obj_set key v rest
  end.

(** *** A reference parser

    [json_loads_ref] reads the fragment of JSON without fractional or
    exponent numbers, [NaN], [Infinity] and surrogate escapes, with
    Python's treatment of whitespace and of repeated keys.  The
    properties below are proved for any parser; this one serves to run
    the model on concrete documents of the fragment. *)

Definition is_json_ws (c : N) : bool :=
  ((c =? 32) || (c =? 9) || (c =? 10) || (c =? 13))%N.

Fixpoint skip_ws (s : pystr) : pystr :=
  match s with
  | c :: s' => if is_json_ws c then skip_ws s' else s
  | [] => []
  end.

Definition hex_value (c : N) : option N :=
  if is_ascii_digit c then Some (c - 48)%N
  else if ((97 <=? c) && (c <=? 102))%N then Some (c - 87)%N
  else if ((65 <=? c) && (c <=? 70))%N then Some (c - 55)%N
  else None.

Definition hex4 (a b c d : N) : option N :=
  match hex_value a, hex_value b, hex_value c, hex_value d with
  | Some x, Some y, Some z, Some w => Some (((x * 16 + y) * 16 + z) * 16 + w)%N
  | _, _, _, _ => None
  end.

(** The character a one-letter escape stands for. *)
Definition unescape (e : N) : option N :=
  if ((e =? 34) || (e =? 92) || (e =? 47))%N then Some e
  else if (e =? 98)%N then Some 8%N
  else if (e =? 102)%N then Some 12%N
  else if (e =? 110)%N then Some 10%N
  else if (e =? 114)%N then Some 13%N
  else if (e =? 116)%N then Some 9%N
  else None.

(** The body of a string literal, after its opening quote. *)
Fixpoint parse_string (s : pystr) (acc : pystr) : option (pystr * pystr) :=
  match s with
  | [] => None
  | c :: r =>
      if (c =? 34)%N then Some (rev acc, r)
      else if (c =? 92)%N then
        match r with
        | [] => None
        | e :: r1 =>
            if (e =? 117)%N then
              match r1 with
              | a :: b :: c' :: d :: r2 =>
                  match hex4 a b c' d with
                  | Some u =>
                      if ((0xd800 <=? u) && (u <=? 0xdfff))%N then None
                      else parse_string r2 (u :: acc)
                  | None => None
                  end
              | _ => None
              end
            else
              match unescape e with
              | Some u => parse_string r1 (u :: acc)
              | None => None
              end
        end
      else if (c <? 32)%N then None
      else parse_string r (c :: acc)
  end.

(** The digits of an integer literal. *)
Fixpoint parse_digits (s : pystr) (acc : Z) : Z * pystr :=
  match s with
  | c :: r =>
      if is_ascii_digit c then parse_digits r (acc * 10 + (Z.of_N c - 48))
      else (acc, s)
  | [] => (acc, [])
  end.

(** An integer literal: an optional sign, then [0] or a digit string
    that does not start with [0]; a fraction or an exponent after it is
    outside the fragment. *)
Definition parse_int (s : pystr) : option (Z * pystr) :=
  let '(neg, body) := match s with
                      | 45%N :: r => (true, r)
                      | _ => (false, s)
                      end in
  match body with
  | d :: r =>
      if is_ascii_digit d then
        let '(n, rest) := if (d =? 48)%N then (0, r) else parse_digits body 0 in
        match rest with
        | c :: _ =>
            if ((c =? 46) || (c =? 101) || (c =? 69))%N then None
            else Some (if neg then - n else n, rest)
        | [] => Some (if neg then - n else n, rest)
        end
      else None
  | [] => None
  end.

Fixpoint parse_value (fuel : nat) (s : pystr) {struct fuel}
    : option (json * pystr) :=
  match fuel with
  | O => None
  | S f =>
      match skip_ws s with
      | 110%N :: 117%N :: 108%N :: 108%N :: r => Some (JNull, r)
      | 116%N :: 114%N :: 117%N :: 101%N :: r => Some (JBool true, r)
      | 102%N :: 97%N :: 108%N :: 115%N :: 101%N :: r => Some (JBool false, r)
      | 34%N :: r =>
          match parse_string r [] with
          | Some (str, r') => Some (JStr str, r')
          | None => None
          end
      | 91%N :: r =>
          match skip_ws r with
          | 93%N :: r' => Some (JArr [], r')
          | _ =>
              match parse_items f r [] with
              | Some (items, r') => Some (JArr items, r')
              | None => None
              end
          end
      | 123%N :: r =>
          match skip_ws r with
          | 125%N :: r' => Some (JObj [], r')
          | _ =>
              match parse_fields f r [] with
              | Some (fields, r') => Some (JObj fields, r')
              | None => None
              end
          end
      | t =>
          match parse_int t with
          | Some (n, r) => Some (JInt n, r)
          | None => None
          end
      end
  end
with parse_items (fuel : nat) (s : pystr) (acc : list json) {struct fuel}
    : option (list json * pystr) :=
  match fuel with
  | O => None
  | S f =>
      match parse_value f s with
      | Some (v, r) =>
          match skip_ws r with
          | 44%N :: r' => parse_items f r' (v :: acc)
          | 93%N :: r' => Some (rev (v :: acc), r')
          | _ => None
          end
      | None => None
      end
  end
with parse_fields (fuel : nat) (s : pystr) (acc : list (pystr * json))
    {struct fuel} : option (list (pystr * json) * pystr) :=
  match fuel with
  | O => None
  | S f =>
      match skip_ws s with
      | 34%N :: r =>
          match parse_string r [] with
          | Some (key, r1) =>
              match skip_ws r1 with
              | 58%N :: r2 =>
                  match parse_value f r2 with
                  | Some (v, r3) =>
                      match skip_ws r3 with
                      | 44%N :: r4 => parse_fields f r4 (obj_set key v acc)
                      | 125%N :: r4 => Some (obj_set key v acc, r4)
                      | _ => None
                      end
                  | None => None
                  end
              | _ => None
              end
          | None => None
          end
      | _ => None
      end
  end.

(** [json.loads(s)]; [None] stands for [JSONDecodeError]. *)
Definition json_loads_ref (s : pystr) : option json :=
  match parse_value (2 * length s + 2) s with
  | Some (v, r) =>
      match skip_ws r with
      | [] => Some v
      | _ => None
      end
  | None => None
  end.

(** ** Regular expressions of the compressor *)

(** The longest prefix whose characters satisfy [p], and the rest. *)
Fixpoint span (p : N -> bool) (s : pystr) : pystr * pystr :=
  match s with
  | c :: s' =>
      if p c then let '(a, b) := span p s' in (c :: a, b) else ([], s)
  | [] => ([], [])
  end.

Definition not_char (x : N) (c : N) : bool := negb (c =? x)%N.

(** The text before and after the first occurrence of [sub]. *)
Fixpoint split_at_sub (sub s : pystr) : option (pystr * pystr) :=
  if startswith sub s then Some ([], drop (length sub) s)
  else match s with
       | [] => None
       | c :: s' =>
           match split_at_sub sub s' with
           | Some (a, b) => Some (c :: a, b)
           | None => None
           end
       end.

(** [<[^>]+>[^<]*</[^>]+>] matched at the start of [s].  Each greedy
    class is followed by a character outside it, so only its longest run
    can match. *)
Definition xml_element_at (s : pystr) : bool :=
  match s with
  | 60%N :: r =>
      match span (not_char 62) r with
      | (_ :: _, 62%N :: r2) =>
          match span (not_char 60) r2 with
          | (_, 60%N :: 47%N :: r4) =>
              match span (not_char 62) r4 with
              | (_ :: _, 62%N :: _) => true
              | _ => false
              end
          | _ => false
          end
      | _ => false
      end
  | _ => false
  end.

(** [bool(re.search(r'<[^>]+>[^<]*</[^>]+>', s))] *)
Fixpoint search_xml_element (s : pystr) : bool :=
  xml_element_at s ||
  match s with
  | [] => false
  | _ :: s' => search_xml_element s'
  end.

(** The rest of the entry pattern once the first [[^>]*] has stopped in
    front of [t]: the attribute name [role=], a quoted value without
    quotes in it (the first group), [[^>]*>], the shortest text up to
    [</entry>] (the second group).  Returns the two groups and the text
    after the match. *)
Definition entry_from_role (t : pystr) : option (pystr * pystr * pystr) :=
  if startswith (lit "role=" ++ dq) t then
    match span (not_char 34) (drop 6 t) with
    | (role, 34%N :: v) =>
        match span (not_char 62) v with
        | (_, 62%N :: x) =>
            match split_at_sub (lit "</entry>") x with
            | Some (msg, rest) => Some (role, msg, rest)
            | None => None
            end
        | _ => None
        end
    | _ => None
    end
  else None.

(** The greedy [[^>]*] after [<entry]: it gives back characters one at a
    time, so the stop furthest to the right from which the rest of the
    pattern matches wins. *)
Fixpoint entry_attrs (t : pystr) : option (pystr * pystr * pystr) :=
  match t with
  | [] => entry_from_role t
  | c :: t' =>
      if (c =? 62)%N then entry_from_role t
      else
        match entry_attrs t' with
        | Some m => Some m
        | None => entry_from_role t
        end
  end.

(** The entry pattern of [_compress_xml_history], with [re.DOTALL],
    matched at the start of [s]: [<entry], [[^>]*], then the part read by
    [entry_from_role]. *)
Definition match_entry (s : pystr) : option (pystr * pystr * pystr) :=
  if startswith (lit "<entry") s then entry_attrs (drop 6 s) else None.

(** [re.findall(entry_pattern, s, re.DOTALL)]: the matches from left to
    right, the search resuming after each match; [skip] counts the
    characters of the last match still to be passed over. *)
Fixpoint findall_entries_aux (skip : nat) (s : pystr) : list (pystr * pystr) :=
  match s with
  | [] => []
  | _ :: s' =>
      match skip with
      | S k => findall_entries_aux k s'
      | O =>
          match match_entry s with
          | Some (role, msg, rest) =>
              (role, msg)
              :: findall_entries_aux (length s - length rest - 1)%nat s'
          | None => findall_entries_aux 0 s'
          end
      end
  end.

Definition findall_entries (s : pystr) : list (pystr * pystr) :=
  findall_entries_aux 0 s.

(** ** Sorting *)

(** Python's sorts are stable.  [before y x] tells that [y] goes in front
    of an [x] that precedes it in the input. *)
Fixpoint insert_by {A} (before : A -> A -> bool) (x : A) (l : list A) : list A :=
  match l with
  | [] => [x]
  | y :: l' => if before y x then y :: insert_by before x l' else x :: l
  end.

Definition stable_sort {A} (before : A -> A -> bool) (l : list A) : list A :=
  foldr (insert_by before) [] l.

(** [l.sort(key=lambda x: x[1], reverse=True)] *)
Definition sort_by_score_desc {K} (ltb : K -> K -> bool) (l : list (nat * K))
    : list (nat * K) :=
  stable_sort (fun y x => ltb (snd x) (snd y)) l.

(** [sorted(l)] on indices *)
Definition sorted_indices (l : list nat) : list nat := stable_sort Nat.ltb l.

(** [list(enumerate(l))] *)
Definition enumerate {A} (l : list A) : list (nat * A) :=
  zip (seq 0 (length l)) l.

(** [l[i]] *)
Definition py_index {A} (l : list A) (i : nat) : result A :=
  match l !! i with
  | Some x => Ok x
  | None => Raise IndexError
  end.

Definition Qltb (a b : Q) : bool := negb (Qle_bool b a).

(** ** Data of the compressor *)

(** The generative collaborator: [client.chat.completions.create] followed
    by [response.choices[0].message.content], given the system message,
    the user prompt, the temperature and [max_tokens].  It is fallible. *)
Record LLMClient : Type := {
  chat_completion : pystr -> pystr -> Q -> Z -> result pystr
}.

(** The fields of [ContextCompressor] the methods read: [self.client] and
    [self.tokenizer] (its [encode] method), either of which may be [None]. *)
Record ContextCompressor : Type := {
  client : option LLMClient;
  tokenizer : option (pystr -> list N)
}.

(** The [config] dictionary of [compress_content]; a key that is absent
    is [None]. *)
Record Config : Type := {
  cfg_max_token : option Z;
  cfg_target_modules : option (list pystr);
  cfg_use_tf_idf : option bool;
  cfg_use_history_compression : option bool;
  cfg_tf_idf_compression_ratio : option Q;
  cfg_history_preserve_tokens : option Z;
  cfg_history_compression_ratio : option Q
}.

(** The dictionary returned by the history compressor; a key that a
    return statement leaves out is [None]. *)
Record HistoryResult : Type := {
  hr_compressed_content : pystr;
  hr_original_tokens : option Z;
  hr_compressed_tokens : option Z;
  hr_compression_ratio : option Q;
  hr_preserve_last_tokens : option Z;
  hr_success : option bool;
  hr_message : pystr
}.

(** The dictionary returned by [compress_text]. *)
Record TextResult : Type := {
  tr_compressed_content : option pystr;
  tr_original_tokens : Z;
  tr_compressed_tokens : option Z;
  tr_compression_ratio : option Q;
  tr_success : option bool
}.

(** What [preprocess_text] hands to [compress_by_ratio]. *)
Record Preprocessed : Type := {
  pp_sentences : list pystr;
  pp_language : pystr
}.

(** The dictionary returned by [compress_by_ratio]. *)
Record RatioResult : Type := {
  rr_compressed_text : pystr;
  rr_compression_ratio : Q;
  rr_sentences_kept : Z;
  rr_sentences_total : Z
}.

(** The stages of [compress_content], for the record of which ones ran. *)
Inductive Stage : Type :=
  | ExtractiveStage
  | HistoryStage
  | GenerativeStage
  | FallbackStage.

(** A computation that records the stages it runs and may raise. *)
Definition staged (A : Type) : Type := list Stage * result A.

Definition stage_ret {A} (a : A) : staged A := ([], Ok a).

Definition stage_run {A} (s : Stage) (m : result A) : staged A := ([s], m).

Definition stage_bind {A B} (m : staged A) (f : A -> staged B) : staged B :=
  match m with
  | (l, Ok a) => let '(l', r) := f a in (l ++ l', r)
  | (l, Raise e) => (l, Raise e)
  end.

(** [item.get('role') == 'user'] guarded by [isinstance(item, dict)]. *)
Definition is_user (item : json) : bool :=
  match item with
  | JObj fields =>
      match obj_get (lit "role") fields with
      | Some (JStr r) => bool_decide (r = lit "user")
      | _ => false
      end
  | _ => false
  end.

(** The forward scan [for i in range(tentative, total)]: [items] is
    [data[i:]]. *)
Fixpoint scan_forward (items : list json) (i : nat) : option nat :=
  match items with
  | [] => None
  | item :: rest => if is_user item then Some i else scan_forward rest (S i)
  end.

(** The backward scan [for i in range(tentative - 1, -1, -1)]:
    [rev_items] is [data[:i]] reversed. *)
Fixpoint scan_backward (rev_items : list json) (i : nat) : option nat :=
  match rev_items with
  | [] => None
  | item :: rest =>
      if is_user item then Some (i - 1)%nat
      else scan_backward rest (i - 1)%nat
  end.

(** Step 2 of [_compress_json_history]: from the tentative index to the
    final split index. *)
Definition final_split_index (data : list json) (tentative : nat) : nat :=
  let final := default tentative (scan_forward (drop tentative data) tentative) in
  if (final =? tentative)%nat && (0 <? tentative)%nat
  then default final (scan_backward (rev (take tentative data)) tentative)
  else final.

(** [max(1, int(len(items_to_compress) * compression_ratio))] *)
Definition keep_items (items_to_compress : list json) (ratio : Q) : Z :=
  Z.max 1 (py_int (inject_Z (Z.of_nat (length items_to_compress)) * ratio)).

(** The f-string of one rebuilt entry: eight spaces, an [entry] tag whose
    only attribute is the quoted [role], the message, the closing tag. *)
Definition render_entry (role message : pystr) : pystr :=
  lit "        <entry role=" ++ dq ++ role ++ dq ++ lit ">" ++ message ++
  lit "</entry>".

(** The f-string of the rebuilt section: the opening tag, the entries
    joined by line feeds, and the closing tag indented by four spaces. *)
Definition render_history_section (entries : list pystr) : pystr :=
  lit "<HISTORY>" ++ [10%N] ++ join [10%N] entries ++ [10%N] ++
  lit "    </HISTORY>".

(** The rebuilt section put back in front of [</context>]: every
    occurrence of [</context>] in [xml_without_history] is replaced by
    four spaces, the new section, a line feed and [</context>]. *)
Definition insert_history_section (xml_without_history : pystr)
    (new_history_entries : list pystr) : pystr :=
  let new_history_section := render_history_section new_history_entries in
  replace (lit "</context>")
    (lit "    " ++ new_history_section ++ [10%N] ++ lit "</context>")
    xml_without_history.

(** The two cuts [_compress_xml_history] makes in a document: the text
    from [<HISTORY>] to the end of the first [</HISTORY>], and the
    document without it. *)
Definition history_content_of (xml_content : pystr) : pystr :=
  py_slice xml_content (find (lit "<HISTORY>") xml_content)
    (find (lit "</HISTORY>") xml_content + 10).


(** [_is_xml_content] *)
Definition _is_xml_content (content : pystr) : bool :=
  let content_stripped := strip content in
  startswith (lit "<?xml") content_stripped
  || startswith (lit "<context>") content_stripped
  || contains (lit "<message") content && contains (lit "role=") content
  || search_xml_element content.

(** The system message of the sectional history request. *)
Definition sectional_system_message : pystr :=
  lit "You are a compression expert specializing in sectional dialogue history. Your task is to compress lengthy dialogue history into concise key point summaries while preserving key information and decision processes.".

(** What a [for item in v] loop visits, or the [TypeError] of a value
    that is not iterable. *)
Definition py_iter (v : json) : result (list json) :=
  match v with
  | JArr items => Ok items
  | JObj fields => Ok (map (fun kv => JStr (fst kv)) fields)
  | JStr s => Ok (map (fun c => JStr [c]) s)
  | _ => Raise TypeError
  end.

(** ** The compressor *)

(** What the compressor takes from the Python runtime and its libraries.
    The properties below hold for every such runtime. *)
Class Runtime : Type := {
  (** [str.isalnum] on a code point outside ASCII (the Unicode database) *)
  unicode_alnum : N -> bool;
  (** [json.loads]; [None] stands for [JSONDecodeError] *)
  json_loads : pystr -> option json;
  (** [str(v)], as an f-string prints a value that is not a string *)
  py_str : json -> pystr;
  (** the prompt texts, whose wording nothing here depends on *)
  _create_compression_prompt : pystr -> list pystr -> Z -> pystr -> pystr;
  _create_sectional_compression_prompt : pystr -> Z -> pystr;
  compression_system_message : pystr -> Z -> pystr;
  (** [_compress_text_by_tf_idf]: the rewriting of the SUB_APP agents of a
      document that is parsed and printed by [xml.etree.ElementTree] *)
  _compress_text_by_tf_idf : pystr -> Q -> result pystr
}.

Section Compressor.

Context `{rt : Runtime}.

(** [\w] of a Unicode pattern. *)
Definition word_char (c : N) : bool :=
  is_ascii_letter c || is_ascii_digit c || (c =? 95)%N || unicode_alnum c.

(** [count_tokens] *)
Definition count_tokens (self : ContextCompressor) (text : pystr) : Z :=
  match tokenizer self with
  | Some encode => Z.of_nat (length (encode text))
  | None =>
      let chinese_chars := Z.of_nat (length (findall_cjk text)) in
      let words := findall_words word_char false None text in
      let english_words := Z.of_nat (length words) in
      let other_chars :=
        Z.of_nat (length text) - chinese_chars - sum_len words in
      py_int (inject_Z chinese_chars * (3 # 2) + inject_Z english_words
              + inject_Z other_chars * (1 # 2))
  end.

(** Step 1 of [_compress_json_history]: the number of items at the end
    of [data] whose accumulated cost stays within the budget;
    [rev_items] is what is left of [data], last item first. *)
Fixpoint count_preserved (self : ContextCompressor)
    (preserve_last_tokens : Z) (rev_items : list json)
    (preserve_tokens_used : Z) : nat :=
  match rev_items with
  | [] => 0%nat
  | item :: rest =>
      let item_tokens := count_tokens self (dumps item) in
      if preserve_tokens_used + item_tokens <=? preserve_last_tokens
      then S (count_preserved self preserve_last_tokens rest
                (preserve_tokens_used + item_tokens))
      else 0%nat
  end.

Definition tentative_split_index (self : ContextCompressor)
    (preserve_last_tokens : Z) (data : list json) : nat :=
  (length data - count_preserved self preserve_last_tokens (rev data) 0)%nat.

(** [items_to_compress[:keep_items]] *)
Definition simple_compression (items_to_compress : list json)
    (compression_ratio : Q) : list json :=
  py_slice_to items_to_compress (keep_items items_to_compress compression_ratio).

(** The compression of the head: the collaborator's summary as a single
    [system] item or, without a client or when the request fails, the
    first items of the head. *)
Definition compress_items (self : ContextCompressor)
    (items_to_compress : list json) (compression_ratio : Q)
    (max_model_tokens : Z) (temperature : Q) : list json :=
  let content_to_compress := dumps (JArr items_to_compress) in
  let compress_tokens := count_tokens self content_to_compress in
  let target_tokens := py_int (inject_Z compress_tokens * compression_ratio) in
  match client self with
  | None => simple_compression items_to_compress compression_ratio
  | Some c =>
      let prompt :=
        _create_sectional_compression_prompt content_to_compress target_tokens in
      match chat_completion c sectional_system_message prompt temperature
              (Z.min (target_tokens + 500) max_model_tokens) with
      | Ok content =>
          [JObj [(lit "role", JStr (lit "system"));
                 (lit "message", JStr (strip content))]]
      | Raise _ => simple_compression items_to_compress compression_ratio
      end
  end.

(** [_compress_json_history] *)
Definition _compress_json_history (self : ContextCompressor)
    (sectional_content : pystr) (preserve_last_tokens : Z)
    (compression_ratio : Q) (max_model_tokens : Z) (temperature : Q)
    : result HistoryResult :=
  let original_tokens := count_tokens self sectional_content in
  if original_tokens <=? preserve_last_tokens then
    Ok {| hr_compressed_content := sectional_content;
          hr_original_tokens := Some original_tokens;
          hr_compressed_tokens := Some original_tokens;
          hr_compression_ratio := Some 1%Q;
          hr_preserve_last_tokens := Some preserve_last_tokens;
          hr_success := None;
          hr_message := lit "Content does not exceed preservation threshold, no compression needed" |}
  else
    match json_loads sectional_content with
    | None =>
        Ok {| hr_compressed_content := sectional_content;
              hr_original_tokens := None; hr_compressed_tokens := None;
              hr_compression_ratio := None; hr_preserve_last_tokens := None;
              hr_success := None;
              hr_message := lit "Failed to parse JSON" |}
    | Some (JArr data) =>
        let tentative := tentative_split_index self preserve_last_tokens data in
        let final := final_split_index data tentative in
        let items_to_compress := take final data in
        let items_to_preserve := drop final data in
        match items_to_compress with
        | [] =>
            Ok {| hr_compressed_content := sectional_content;
                  hr_original_tokens := Some original_tokens;
                  hr_compressed_tokens := Some original_tokens;
                  hr_compression_ratio := Some 1%Q;
                  hr_preserve_last_tokens := None;
                  hr_success := None;
                  hr_message := lit "No items to compress" |}
        | _ :: _ =>
            let compressed_items :=
              compress_items self items_to_compress compression_ratio
                max_model_tokens temperature in
            let final_items := compressed_items ++ items_to_preserve in
            let final_content := dumps (JArr final_items) in
            let final_tokens := count_tokens self final_content in
            if original_tokens =? 0 then Raise ZeroDivisionError
            else
              Ok {| hr_compressed_content := final_content;
                    hr_original_tokens := Some original_tokens;
                    hr_compressed_tokens := Some final_tokens;
                    hr_compression_ratio :=
                      Some (1 - inject_Z final_tokens / inject_Z original_tokens)%Q;
                    hr_preserve_last_tokens := Some preserve_last_tokens;
                    hr_success := Some true;
                    hr_message :=
                      lit "Section compression completed: " ++
                      str_of_int original_tokens ++ [32; 0x2192; 32]%N ++
                      str_of_int final_tokens ++ lit " tokens" |}
        end
    | Some _ =>
        Ok {| hr_compressed_content := sectional_content;
              hr_original_tokens := None; hr_compressed_tokens := None;
              hr_compression_ratio := None; hr_preserve_last_tokens := None;
              hr_success := None;
              hr_message := lit "Invalid JSON array format" |}
    end.

(** A value printed inside an f-string. *)
Definition fmt (v : json) : pystr :=
  match v with
  | JStr s => s
  | _ => py_str v
  end.

(** One turn of the loop that rebuilds the entries: [item.get] exists
    on a [dict] only. *)
Definition entry_of_item (item : json) : result pystr :=
  match item with
  | JObj fields =>
      let role := default (JStr (lit "system")) (obj_get (lit "role") fields) in
      let message := default (JStr []) (obj_get (lit "message") fields) in
      Ok (render_entry (fmt role) (fmt message))
  | _ => Raise AttributeError
  end.

(** The dictionary of one entry: its [role] and its stripped [message]. *)
Definition history_item (entry : pystr * pystr) : json :=
  JObj [(lit "role", JStr (fst entry));
        (lit "message", JStr (strip (snd entry)))].

(** [_compress_xml_history] *)
Definition _compress_xml_history (self : ContextCompressor)
    (xml_content : pystr) (preserve_last_tokens : Z)
    (compression_ratio : Q) (max_model_tokens : Z) (temperature : Q)
    : result HistoryResult :=
  let history_start := find (lit "<HISTORY>") xml_content in
  let history_end := find (lit "</HISTORY>") xml_content + 10 in
  if (history_start =? -1) || (history_end =? -1) then
    Ok {| hr_compressed_content := xml_content;
          hr_original_tokens := None; hr_compressed_tokens := None;
          hr_compression_ratio := None; hr_preserve_last_tokens := None;
          hr_success := None;
          hr_message := lit "No HISTORY section found" |}
  else
    let history_content := py_slice xml_content history_start history_end in
    let xml_without_history :=
      py_slice_to xml_content history_start ++
      py_slice_from xml_content history_end in
    let entries := findall_entries history_content in
    match entries with
    | [] =>
        Ok {| hr_compressed_content := xml_content;
              hr_original_tokens := None; hr_compressed_tokens := None;
              hr_compression_ratio := None; hr_preserve_last_tokens := None;
              hr_success := None;
              hr_message := lit "No entries found in HISTORY section" |}
    | _ :: _ =>
        let history_array := map history_item entries in
        let history_json_str := dumps (JArr history_array) in
        compression_result ←
          _compress_json_history self history_json_str preserve_last_tokens
            compression_ratio max_model_tokens temperature;
        if default true (hr_success compression_result) then
          let compressed_history_str := hr_compressed_content compression_result in
          let compressed_history_str :=
            if startswith (lit "[") (strip compressed_history_str)
            then compressed_history_str
            else lit "[" ++ compressed_history_str ++ lit "]" in
          let compressed_history_array :=
            default (JArr history_array) (json_loads compressed_history_str) in
          items ← py_iter compressed_history_array;
          new_history_entries ← mapM entry_of_item items;
          let final_xml :=
            insert_history_section xml_without_history new_history_entries in
          Ok {| hr_compressed_content := final_xml;
                hr_original_tokens := Some (count_tokens self xml_content);
                hr_compressed_tokens := Some (count_tokens self final_xml);
                hr_compression_ratio := hr_compression_ratio compression_result;
                hr_preserve_last_tokens :=
                  hr_preserve_last_tokens compression_result;
                hr_success := hr_success compression_result;
                hr_message := hr_message compression_result |}
        else Ok compression_result
    end.

(** [_compress_sectional_history] *)
Definition _compress_sectional_history (self : ContextCompressor)
    (content : pystr) (preserve_last_tokens : Z) (compression_ratio : Q)
    : result HistoryResult :=
  let max_model_tokens := 8192 in
  let temperature := (1 # 10)%Q in
  if _is_xml_content content && contains (lit "<HISTORY>") content
  then _compress_xml_history self content preserve_last_tokens
         compression_ratio max_model_tokens temperature
  else _compress_json_history self content preserve_last_tokens
         compression_ratio max_model_tokens temperature.

(** [compress_text] *)
Definition compress_text (self : ContextCompressor) (content : pystr)
    (target_modules : list pystr) (max_model_tokens : Z)
    (compression_ratio : Q) (temperature : Q) (output_format : pystr)
    : result TextResult :=
  match client self with
  | None => Raise (OtherError (lit "LLM client not initialized"))
  | Some c =>
      let original_tokens := count_tokens self content in
      let target_tokens := py_int (inject_Z original_tokens * compression_ratio) in
      if original_tokens <=? target_tokens then
        Ok {| tr_compressed_content := Some content;
              tr_original_tokens := original_tokens;
              tr_compressed_tokens := Some original_tokens;
              tr_compression_ratio := Some 1%Q;
              tr_success := None |}
      else
        let prompt :=
          _create_compression_prompt content target_modules target_tokens
            output_format in
        match chat_completion c
                (compression_system_message output_format target_tokens)
                prompt temperature (Z.min (target_tokens + 1000) 4096) with
        | Ok response =>
            let compressed_content := strip response in
            let compressed_tokens := count_tokens self compressed_content in
            Ok {| tr_compressed_content := Some compressed_content;
                  tr_original_tokens := original_tokens;
                  tr_compressed_tokens := Some compressed_tokens;
                  tr_compression_ratio :=
                    Some (1 - inject_Z compressed_tokens
                              / inject_Z original_tokens)%Q;
                  tr_success := Some (compressed_tokens <=? target_tokens) |}
        | Raise _ =>
            Ok {| tr_compressed_content := None;
                  tr_original_tokens := original_tokens;
                  tr_compressed_tokens := None;
                  tr_compression_ratio := None;
                  tr_success := Some false |}
        end
  end.

(** [_compress_text_simple].  In the source the line splitting, the
    classification of the lines, the greedy packing and the truncation
    all sit in the block of the [if], below its [return content]: no
    run reaches them, and nothing assigns [compressed_result] before the
    last statement, [return compressed_result], reads it. *)
Definition _compress_text_simple (self : ContextCompressor)
    (content : pystr) (target_modules : list pystr) (max_tokens : Z)
    (compression_ratio : Q) : result pystr :=
  let current_tokens := count_tokens self content in
  if current_tokens <=? max_tokens then Ok content
  else Raise UnboundLocalError.

(** [compress_content], with the record of the stages it runs. *)
Definition compress_content (self : ContextCompressor) (content : pystr)
    (config : Config) : staged pystr :=
  let original_tokens := count_tokens self content in
  let max_tokens := default 1000 (cfg_max_token config) in
  let target_modules := default [lit "all"] (cfg_target_modules config) in
  let use_tf_idf := default false (cfg_use_tf_idf config) in
  let use_history_compression :=
    default false (cfg_use_history_compression config) in
  if original_tokens <=? max_tokens then stage_ret content
  else
    let compression_ratio :=
      if 0 <? original_tokens
      then (inject_Z max_tokens / inject_Z original_tokens)%Q
      else 1%Q in
    let processed_content := content in
    stage_bind
      (if use_tf_idf && _is_xml_content content then
         let tf_idf_ratio :=
           default (6 # 10)%Q (cfg_tf_idf_compression_ratio config) in
         stage_run ExtractiveStage
           (_compress_text_by_tf_idf processed_content tf_idf_ratio)
       else stage_ret processed_content)
      (fun processed_content =>
    stage_bind
      (if use_history_compression && _is_xml_content content then
         let preserve_tokens :=
           default 500 (cfg_history_preserve_tokens config) in
         let history_ratio :=
           default (3 # 10)%Q (cfg_history_compression_ratio config) in
         stage_run HistoryStage
           (history_result ←
              _compress_sectional_history self processed_content
                preserve_tokens history_ratio;
            Ok (hr_compressed_content history_result))
       else stage_ret processed_content)
      (fun processed_content =>
    match client self with
    | Some _ =>
        let max_model_tokens := 8192 in
        stage_bind
          (stage_run GenerativeStage
             (Ok (compress_text self processed_content target_modules
                    max_model_tokens compression_ratio (1 # 10)%Q (lit "xml"))))
          (fun attempt =>
             match attempt with
             | Ok result =>
                 stage_ret
                   (default processed_content (tr_compressed_content result))
             | Raise _ =>
                 stage_run FallbackStage
                   (_compress_text_simple self processed_content
                      target_modules max_tokens compression_ratio)
             end)
    | None =>
        stage_run FallbackStage
          (_compress_text_simple self processed_content target_modules
             max_tokens compression_ratio)
    end)).

End Compressor.

(** ** The extractive summarizer ([TextCompressor.compress_by_ratio]) *)

(** The selection shared by the two branches of [compress_by_ratio]:
    rank the scored indices, keep the first [target_sentences] of them,
    put the kept indices back in ascending order and read the sentences
    at these indices. *)
Definition select_sentences {K} (ltb : K -> K -> bool)
    (sentences : list pystr) (scored_sentences : list (nat * K))
    (target_sentences : Z) : result (list pystr) :=
  let ranked := sort_by_score_desc ltb scored_sentences in
  let selected_indices :=
    sorted_indices (map fst (py_slice_to ranked target_sentences)) in
  mapM (py_index sentences) selected_indices.

(** What the summarizer takes from its libraries. *)
Class TextLibraries : Type := {
  (** [preprocess_text]: the segmentation collaborators (NLTK, jieba and
      the regular-expression splitters behind them) *)
  preprocess_text : pystr -> Preprocessed;
  (** [TfidfVectorizer(...).fit_transform(sentences)] summed along each
      row: one score per sentence, or the exception of the vectorizer *)
  tfidf_scores : list pystr -> result (list Q);
  (** [round(x, 4)] *)
  round4 : Q -> Q
}.

(** The vectorizer returns one row per sentence it is given. *)
Definition one_score_per_sentence `{TextLibraries} : Prop :=
  forall sentences scores,
    tfidf_scores sentences = Ok scores -> length scores = length sentences.

Section TextCompressor.

Context `{tl : TextLibraries}.

(** [compress_by_ratio] *)
Definition compress_by_ratio (text : pystr) (compression_ratio : Q)
    : result RatioResult :=
  let processed := preprocess_text text in
  let sentences := pp_sentences processed in
  match sentences with
  | [] =>
      Ok {| rr_compressed_text := text;
            rr_compression_ratio := 0%Q;
            rr_sentences_kept := 0;
            rr_sentences_total := 0 |}
  | _ :: _ =>
      let target_sentences :=
        Z.max 1 (py_int (inject_Z (Z.of_nat (length sentences))
                         * compression_ratio)) in
      selected_sentences ←
        try_except
          (sentence_scores ← tfidf_scores sentences;
           select_sentences Qltb sentences (enumerate sentence_scores)
             target_sentences)
          (fun _ =>
             let sentence_lengths :=
               enumerate (map (fun s => Z.of_nat (length s)) sentences) in
             select_sentences Z.ltb sentences sentence_lengths
               target_sentences);
      let compressed_text :=
        if bool_decide (pp_language processed = lit "zh")
        then join [0x3002%N] selected_sentences
        else join (lit ". ") selected_sentences in
      let actual_ratio :=
        (inject_Z (Z.of_nat (length selected_sentences))
         / inject_Z (Z.of_nat (length sentences)))%Q in
      Ok {| rr_compressed_text := compressed_text;
            rr_compression_ratio := round4 actual_ratio;
            rr_sentences_kept := Z.of_nat (length selected_sentences);
            rr_sentences_total := Z.of_nat (length sentences) |}
  end.

End TextCompressor.

(** ** The section writers ([main.py]) *)

(** The file [tree.write] leaves for an empty context: the XML
    declaration and the four empty sections. *)
Definition initial_context_xml : pystr :=
  lit "<?xml version='1.0' encoding='utf-8'?>" ++ [10%N] ++
  lit "<context><BACKGROUND /><PLAN /><SUB_APP /><HISTORY /></context>".

(** The f-string [user_{user_id}] for the optional [user_id]. *)
Definition user_dir_name (user_id : option pystr) : pystr :=
  lit "user_" ++ default (lit "None") user_id.

(** What the section writers take from their surroundings. *)
Class WriterEnv : Type := {
  (** the absolute path of the data directory *)
  DATA_DIR : pystr;
  (** [datetime.now().isoformat()] at the time of the call *)
  timestamp : pystr;
  (** the writers of the BACKGROUND, PLAN and SUB_APP sections, which
      read their content with [json.loads] and print it with f-strings *)
  add_background_content_raw : pystr -> pystr -> pystr -> result pystr;
  add_plan_content_raw : pystr -> pystr -> pystr -> result pystr;
  add_subapp_content_raw : pystr -> pystr -> pystr -> result pystr
}.

Section Writers.

Context `{env : WriterEnv}.

(** [get_user_files(user_id)['context']] *)
Definition context_file_path (user_id : option pystr) : pystr :=
  DATA_DIR ++ lit "/" ++ user_dir_name user_id ++ lit "/context.xml".

(** [initialize_context_file] *)
Definition initialize_context_file (context_file_path : pystr)
    (fs : gmap pystr pystr) : gmap pystr pystr :=
  match fs !! context_file_path with
  | Some _ => fs
  | None => <[context_file_path := initial_context_xml]> fs
  end.

(** [add_history_content_raw] *)
Definition add_history_content_raw (xml_content content role : pystr)
    : pystr :=
  let new_content :=
    lit "    <entry role=" ++ dq ++ role ++ dq ++ lit " timestamp=" ++ dq ++
    timestamp ++ dq ++ lit ">" ++ content ++ lit "</entry>" in
  let section :=
    lit "<HISTORY>" ++ [10%N] ++ new_content ++ [10%N] ++ lit "    </HISTORY>" in
  if contains (lit "</HISTORY>") xml_content then
    replace (lit "</HISTORY>")
      (new_content ++ [10%N] ++ lit "    </HISTORY>") xml_content
  else
    let xml_content := replace (lit "<HISTORY />") section xml_content in
    replace (lit "<HISTORY></HISTORY>") section xml_content.

(** [add_content_to_section]: the files before the call, then the files
    after it and what the call returns. *)
Definition add_content_to_section (section content role : pystr)
    (user_id : option pystr) (fs : gmap pystr pystr)
    : gmap pystr pystr * result pystr :=
  let context_file_path := context_file_path user_id in
  let fs := initialize_context_file context_file_path fs in
  let xml_content := default [] (fs !! context_file_path) in
  let updated :=
    if bool_decide (section = lit "BACKGROUND") then
      add_background_content_raw xml_content content role
    else if bool_decide (section = lit "PLAN") then
      add_plan_content_raw xml_content content role
    else if bool_decide (section = lit "SUB_APP") then
      add_subapp_content_raw xml_content content role
    else if bool_decide (section = lit "HISTORY") then
      Ok (add_history_content_raw xml_content content role)
    else Ok xml_content in
  match updated with
  | Ok xml_content => (<[context_file_path := xml_content]> fs, Ok xml_content)
  | Raise e => (fs, Raise e)
  end.

End Writers.

(** ** Notions used to state the properties *)

(** The number of CJK ideographs of a text. *)
Definition cjk_count (text : pystr) : Z :=
  Z.of_nat (length (filter (fun c => Is_true (is_cjk c)) text)).

(** The generative collaborator is absent, or every request to it fails. *)
Definition generative_unavailable (self : ContextCompressor) : Prop :=
  match client self with
  | None => True
  | Some c =>
      forall system prompt temperature max_tokens,
        exists e, chat_completion c system prompt temperature max_tokens = Raise e
  end.




(** The separator [compress_by_ratio] joins the kept sentences with. *)
Definition sentence_separator (language : pystr) : pystr :=
  if bool_decide (language = lit "zh") then [0x3002%N] else lit ". ".

(** ** Sample runs

    Concrete collaborators and documents on which the model is run.  The
    sample texts hold ASCII characters and CJK ideographs only, and the
    sample documents are in the fragment of [json_loads_ref]. *)

(** Among the code points of the samples that are outside ASCII, the CJK
    ideographs, which are alphanumeric. *)
Definition sample_alnum (c : N) : bool := is_cjk c.

(** The runtime of the sample runs.  They are made without a client, with
    the extractive stage off and on entries whose roles and messages are
    strings, so that neither the prompts, nor [_compress_text_by_tf_idf],
    nor [py_str] is ever called; the fields below only fill the record. *)
#[global] Instance sample_runtime : Runtime := {|
  unicode_alnum := sample_alnum;
  json_loads := json_loads_ref;
  py_str := dumps;
  _create_compression_prompt := fun content _ _ _ => content;
  _create_sectional_compression_prompt := fun content _ => content;
  compression_system_message := fun _ _ => [];
  _compress_text_by_tf_idf := fun content _ => Ok content
|}.

(** A compressor built without an API key: no client, no tokenizer. *)
Definition plain : ContextCompressor := {| client := None; tokenizer := None |}.

(** A configuration with no key set, and one that only sets [max_token]. *)
Definition empty_config : Config :=
  {| cfg_max_token := None; cfg_target_modules := None;
     cfg_use_tf_idf := None; cfg_use_history_compression := None;
     cfg_tf_idf_compression_ratio := None;
     cfg_history_preserve_tokens := None;
     cfg_history_compression_ratio := None |}.

Definition budget_config (max_token : Z) : Config :=
  {| cfg_max_token := Some max_token; cfg_target_modules := None;
     cfg_use_tf_idf := None; cfg_use_history_compression := None;
     cfg_tf_idf_compression_ratio := None;
     cfg_history_preserve_tokens := None;
     cfg_history_compression_ratio := None |}.

(** A history entry as [json.loads] returns it. *)
Definition entry (role message : pystr) : json :=
  JObj [(lit "role", JStr role); (lit "message", JStr message)].

(** Two user turns. *)
Definition two_user_history : list json :=
  [entry (lit "user") (lit "a"); entry (lit "user") (lit "b")].

(** A message that makes an entry cost exactly 50 tokens: 26 one-letter
    words and a full stop. *)
Definition message_50 : pystr :=
  join (lit " ") (replicate 26 (lit "a")) ++ lit ".".

(** The six-entry history of the boundary example: every entry costs 50
    tokens. *)
Definition boundary_history : list json :=
  map (fun role => entry (lit role) message_50)
    ["system"; "user"; "assistant"; "user"; "assistant"; "user"]%string.

(** A document whose HISTORY section holds one entry with a timestamp. *)
Definition stamped_document : pystr :=
  lit "<context>" ++ [10%N] ++
  lit "    <HISTORY>" ++ [10%N] ++
  lit "        <entry role=" ++ dq ++ lit "user" ++ dq ++ lit " timestamp=" ++
  dq ++ lit "2024-01-01T00:00:00" ++ dq ++ lit ">hello there</entry>" ++
  [10%N] ++
  lit "    </HISTORY>" ++ [10%N] ++
  lit "</context>".

(** The regular-expression fallback of the English branch of
    [preprocess_text]: the pieces between the characters of [.!?;] and
    line feeds, stripped, the empty ones dropped. *)
Definition is_sentence_end (c : N) : bool :=
  ((c =? 46) || (c =? 33) || (c =? 63) || (c =? 59) || (c =? 10))%N.

Fixpoint split_sentences (text : pystr) (cur : pystr) : list pystr :=
  match text with
  | [] => [rev cur]
  | c :: rest =>
      if is_sentence_end c then rev cur :: split_sentences rest []
      else split_sentences rest (c :: cur)
  end.

Definition nonempty (s : pystr) : bool :=
  match s with
  | [] => false
  | _ :: _ => true
  end.

Definition sample_preprocess (text : pystr) : Preprocessed :=
  {| pp_sentences :=
       List.filter nonempty (map strip (split_sentences (strip text) []));
     pp_language := lit "en" |}.

(** Sample libraries: the splitter above, and a vectorizer that scores a
    sentence by its length. *)
#[global] Instance sample_libraries : TextLibraries := {|
  preprocess_text := sample_preprocess;
  tfidf_scores :=
    fun sentences => Ok (map (fun s => inject_Z (Z.of_nat (length s))) sentences);
  round4 := fun q => q
|}.


Definition single_sentence_text : pystr := lit "  Only one sentence here.  ".



(** A sample environment of the writers; the runs below call none of the
    three abstract writers. *)
#[global] Instance sample_env : WriterEnv := {|
  DATA_DIR := lit "/srv/data";
  timestamp := lit "2024-01-01T00:00:00";
  add_background_content_raw := fun _ _ _ => Raise (OtherError (lit "not run"));
  add_plan_content_raw := fun _ _ _ => Raise (OtherError (lit "not run"));
  add_subapp_content_raw := fun _ _ _ => Raise (OtherError (lit "not run"))
|}.

(** ** Further notions used to state properties *)

(** The accumulated cost of a run of history items, each measured on its
    own serialization as the backward scan measures it. *)
Definition items_tokens `{Runtime} (self : ContextCompressor)
    (items : list json) : Z :=
  foldr (fun item acc => count_tokens self (dumps item) + acc) 0 items.



(** [compatible p s]: [p] and [s] agree as far as both go, so that a
    continuation of [s] may start with [p]. *)
Fixpoint compatible (p s : pystr) : bool :=
  match p, s with
  | a :: p', b :: s' => (a =? b)%N && compatible p' s'
  | _, _ => true
  end.

(** No occurrence of [sub] starts inside [u], whatever follows [u]. *)
Fixpoint clear_of (sub u : pystr) : bool :=
  match u with
  | [] => true
  | _ :: u' => negb (compatible sub u) && clear_of sub u'
  end.

(** A text without [<]. *)
Definition text_safe (s : pystr) : bool :=
  forallb (fun c => negb (c =? 60)%N) s.

(** An attribute value without a double quote, [<], [=] and [>]. *)
Definition attr_safe (s : pystr) : bool :=
  forallb (fun c => negb ((c =? 34) || (c =? 60) || (c =? 61) || (c =? 62))%N) s.

(** The surroundings of a call made when the clock reads [t]. *)
Definition at_time (env : WriterEnv) (t : pystr) : WriterEnv :=
  {| DATA_DIR := @DATA_DIR env;
     timestamp := t;
     add_background_content_raw := @add_background_content_raw env;
     add_plan_content_raw := @add_plan_content_raw env;
     add_subapp_content_raw := @add_subapp_content_raw env |}.

(** One call of [add_history_content_raw]: the entry [e] gives the clock
    reading, the role and the content. *)
Definition append_history (env : WriterEnv) (xml_content : pystr)
    (e : pystr * pystr * pystr) : pystr :=
  @add_history_content_raw (at_time env (fst (fst e))) xml_content (snd e)
    (snd (fst e)).

(** The entry element that [add_history_content_raw] writes. *)
Definition entry_element (e : pystr * pystr * pystr) : pystr :=
  lit "<entry role=" ++ dq ++ snd (fst e) ++ dq ++ lit " timestamp=" ++ dq ++
  fst (fst e) ++ dq ++ lit ">" ++ snd e ++ lit "</entry>".

(** The lines of a HISTORY section filled by successive calls: the first
    entry is indented by four spaces, the later ones by eight. *)
Definition written_lines (es : list (pystr * pystr * pystr)) : pystr :=
  match es with
  | [] => []
  | e :: es' =>
      lit "    " ++ entry_element e ++ [10%N] ++
      flat_map (fun e' => lit "        " ++ entry_element e' ++ [10%N]) es'
  end.

(** The context file in front of its HISTORY section. *)
Definition document_head : pystr :=
  lit "<?xml version='1.0' encoding='utf-8'?>" ++ [10%N] ++
  lit "<context><BACKGROUND /><PLAN /><SUB_APP />".

(** The context file after the entries [es] were appended to an empty
    HISTORY section. *)
Definition written_document (es : list (pystr * pystr * pystr)) : pystr :=
  document_head ++ lit "<HISTORY>" ++ [10%N] ++ written_lines es ++
  lit "    </HISTORY>" ++ lit "</context>".

(** An entry whose clock reading and role are safe attribute values and
    whose content has no [<]. *)
Definition entry_safe (e : pystr * pystr * pystr) : bool :=
  attr_safe (fst (fst e)) && attr_safe (snd (fst e)) && text_safe (snd e).

(** * Properties *)

(** ** Arithmetic, slices and strips *)

Lemma py_int_floor q : (0 <= q)%Q -> py_int q = Qfloor q.
Proof.
  destruct q as [n d]. unfold Qle, py_int, Qfloor; simpl. intros H.
  apply Z.quot_div_nonneg; lia.
Qed.

Lemma inject_Z_nonneg z : 0 <= z -> (0 <= inject_Z z)%Q.
Proof. intros H. unfold Qle; simpl. lia. Qed.

Lemma scaled_count_floor (n : nat) (c : Q) :
  (0 <= c)%Q ->
  py_int (inject_Z (Z.of_nat n) * c) = Qfloor (inject_Z (Z.of_nat n) * c).
Proof.
  intros Hc. apply py_int_floor. apply Qmult_le_0_compat; [|assumption].
  apply inject_Z_nonneg. lia.
Qed.

Lemma scaled_count_le (n : nat) (c : Q) :
  (c <= 1)%Q -> Qfloor (inject_Z (Z.of_nat n) * c) <= Z.of_nat n.
Proof.
  intros Hc. rewrite <- (Qfloor_Z (Z.of_nat n)) at 2.
  apply Qfloor_resp_le.
  rewrite <- (Qmult_1_r (inject_Z (Z.of_nat n))) at 2.
  rewrite (Qmult_comm _ c), (Qmult_comm _ 1).
  apply Qmult_le_compat_r; [assumption|]. apply inject_Z_nonneg. lia.
Qed.

Lemma bind_Ok {A B} (a : A) (f : A -> result B) : (Ok a ≫= f) = f a.
Proof. reflexivity. Qed.

Lemma py_slice_to_take {A} (l : list A) (k : Z) :
  0 <= k -> py_slice_to l k = take (Z.to_nat k) l.
Proof.
  intros Hk. unfold py_slice_to, py_slice, clip_index.
  replace (0 <? 0) with false by reflexivity.
  replace (k <? 0) with false by (symmetry; apply Z.ltb_ge; lia).
  rewrite (Z.min_l 0) by lia.
  change (Z.to_nat 0) with 0%nat. rewrite drop_0, Z.sub_0_r.
  destruct (Z.le_ge_cases k (Z.of_nat (length l))).
  - now rewrite Z.min_l.
  - rewrite Z.min_r by lia. rewrite Nat2Z.id.
    rewrite (take_ge l (length l)) by lia.
    rewrite (take_ge l (Z.to_nat k)) by lia. reflexivity.
Qed.

Lemma rev_reverse {A} (l : list A) : rev l = reverse l.
Proof. unfold reverse. apply rev_alt. Qed.







(** ** The token estimator *)

Lemma letter_not_cjk c : is_ascii_letter c = true -> is_cjk c = false.
Proof.
  unfold is_ascii_letter, is_cjk. intros H.
  destruct (N.leb_spec 0x4e00 c); [|reflexivity].
  apply orb_true_iff in H as [H|H]; apply andb_true_iff in H as [_ H];
    apply N.leb_le in H; lia.
Qed.

Lemma length_findall_cjk text :
  Z.of_nat (length (findall_cjk text)) = cjk_count text.
Proof. unfold findall_cjk, cjk_count. now rewrite length_map. Qed.

Lemma cjk_count_cons c text :
  cjk_count (c :: text) = (if is_cjk c then 1 else 0) + cjk_count text.
Proof.
  unfold cjk_count. destruct (is_cjk c) eqn:E.
  - rewrite filter_cons_True by (rewrite E; exact I). simpl length. lia.
  - rewrite filter_cons_False by (rewrite E; exact id). lia.
Qed.

Lemma cjk_count_nonneg text : 0 <= cjk_count text.
Proof. unfold cjk_count. lia. Qed.

(** The letters of the matched words and the ideographs are distinct
    characters of the text: together they are at most its length (plus
    the letters of the run that was open when the scan started). *)
Lemma words_and_cjk_fit (w : N -> bool) text : forall prev cur,
  sum_len (findall_words w prev cur text) + cjk_count text
  <= Z.of_nat (length text) + Z.of_nat (length (default [] cur)).
Proof.
  induction text as [|c rest IH]; intros prev cur.
  - destruct cur as [acc|]; simpl; unfold cjk_count; simpl.
    + rewrite length_rev. lia.
    + lia.
  - rewrite cjk_count_cons. cbn [findall_words].
    destruct (is_ascii_letter c) eqn:El.
    + rewrite (letter_not_cjk _ El).
      destruct cur as [acc|].
      * specialize (IH true (Some (c :: acc))). simpl in *. lia.
      * destruct prev.
        -- specialize (IH true None). simpl in *. lia.
        -- specialize (IH true (Some [c])). simpl in *. lia.
    + destruct (w c).
      * specialize (IH true None). destruct (is_cjk c), cur; simpl in *; lia.
      * destruct cur as [acc|]; specialize (IH false None);
          destruct (is_cjk c); simpl in *; rewrite ?length_rev; lia.
Qed.

Lemma heuristic_nonneg a b c :
  0 <= a -> 0 <= b -> 0 <= c ->
  (0 <= inject_Z a * (3 # 2) + inject_Z b + inject_Z c * (1 # 2))%Q.
Proof.
  intros Ha Hb Hc.
  repeat apply Qplus_nonneg; try apply Qmult_le_0_compat;
    try (now apply inject_Z_nonneg); unfold Qle; simpl; lia.
Qed.

Section TokenEstimator.

Context `{rt : Runtime}.


End TokenEstimator.

(** ** The orchestrator *)

Section Orchestrator.

Context `{rt : Runtime}.

(** Claim C6.  A content whose estimate is within [max_token] is returned
    unchanged, and the record of stages is empty: neither the extractive
    stage, nor the history stage, nor the generative stage, nor the
    fallback packer runs. *)
Theorem C6_within_budget_unchanged (self : ContextCompressor)
    (content : pystr) (config : Config) :
  count_tokens self content <= default 1000 (cfg_max_token config) ->
  compress_content self content config = ([], Ok content).
Proof.
  intros H. unfold compress_content.
  apply Z.leb_le in H. rewrite H. reflexivity.
Qed.

(** Claim C1 (not met by the code).  Whenever the estimate of the content
    exceeds [max_token], [_compress_text_simple] raises
    [UnboundLocalError] instead of returning a string, and so does
    [compress_content] when no client is configured and the two optional
    stages are off: the fallback stage is reached and its exception
    leaves [compress_content]. *)
Theorem C1_fallback_packer_raises (self : ContextCompressor)
    (content : pystr) (config : Config) :
  client self = None ->
  default 1000 (cfg_max_token config) < count_tokens self content ->
  (forall target_modules compression_ratio,
     _compress_text_simple self content target_modules
       (default 1000 (cfg_max_token config)) compression_ratio
     = Raise UnboundLocalError) /\
  (default false (cfg_use_tf_idf config) = false ->
   default false (cfg_use_history_compression config) = false ->
   compress_content self content config
   = ([FallbackStage], Raise UnboundLocalError)).
Proof.
  intros Hc H. apply Z.leb_gt in H. split.
  - intros tm r. unfold _compress_text_simple. now rewrite H.
  - intros Ht Hh. unfold compress_content.
    rewrite H, Ht, Hh, Hc. cbn. unfold _compress_text_simple. now rewrite H.
Qed.

End Orchestrator.

(** ** The split index of the history compressor *)

Section SplitIndex.

Implicit Types (data items rev_items : list json) (item : json).

Lemma scan_forward_Some items : forall i u,
  scan_forward items i = Some u ->
  (i <= u)%nat /\
  (exists item, items !! (u - i)%nat = Some item /\ is_user item = true) /\
  (forall k item,
     (k < u - i)%nat -> items !! k = Some item -> is_user item = false).
Proof.
  induction items as [|x rest IH]; intros i u H; [discriminate|].
  simpl in H. destruct (is_user x) eqn:Ex.
  - injection H as <-. replace (i - i)%nat with 0%nat by lia.
    split; [lia|]. split; [now exists x|]. intros k item Hk; lia.
  - apply IH in H as (Hle & (item & Hit & Hu) & Hbefore).
    split; [lia|]. replace (u - i)%nat with (S (u - S i)) by lia. split.
    + now exists item.
    + intros [|k] it Hk Hl; simpl in Hl.
      * now injection Hl as <-.
      * apply (Hbefore k); [lia|assumption].
Qed.

Lemma scan_forward_head item rest i :
  is_user item = true -> scan_forward (item :: rest) i = Some i.
Proof. intros H. simpl. now rewrite H. Qed.

Lemma scan_backward_Some rev_items : forall i u,
  length rev_items = i ->
  scan_backward rev_items i = Some u ->
  (u < i)%nat /\
  (exists item,
     rev_items !! (i - 1 - u)%nat = Some item /\ is_user item = true) /\
  (forall k item,
     (k < i - 1 - u)%nat -> rev_items !! k = Some item ->
     is_user item = false).
Proof.
  induction rev_items as [|x rest IH]; intros i u Hlen H; [discriminate|].
  simpl in Hlen. simpl in H. destruct (is_user x) eqn:Ex.
  - injection H as <-. replace (i - 1 - (i - 1))%nat with 0%nat by lia.
    split; [lia|]. split; [now exists x|]. intros k item Hk; lia.
  - apply IH in H as (Hlt & (item & Hit & Hu) & Hbefore); [|lia].
    split; [lia|].
    replace (i - 1 - u)%nat with (S (i - 1 - 1 - u)) by lia. split.
    + now exists item.
    + intros [|k] it Hk Hl; simpl in Hl.
      * now injection Hl as <-.
      * apply (Hbefore k); [lia|assumption].
Qed.

Lemma scan_backward_finds rev_items : forall i k item,
  rev_items !! k = Some item -> is_user item = true ->
  is_Some (scan_backward rev_items i).
Proof.
  induction rev_items as [|x rest IH]; intros i k item Hk Hu; [discriminate|].
  simpl. destruct (is_user x) eqn:Ex; [eauto|].
  destruct k as [|k]; simpl in Hk.
  - injection Hk as <-. congruence.
  - eapply IH; eauto.
Qed.

(** The part of the refinement that works as described: a forward scan
    that stops strictly after the tentative index decides the split. *)
Lemma final_split_forward data (B U : nat) :
  scan_forward (drop B data) B = Some U -> (B < U)%nat ->
  final_split_index data B = U /\
  (exists item, data !! U = Some item /\ is_user item = true) /\
  (forall k item,
     (B <= k < U)%nat -> data !! k = Some item -> is_user item = false).
Proof.
  intros H Hlt. split.
  - unfold final_split_index. rewrite H. simpl.
    destruct (Nat.eqb_spec U B); [lia|]. reflexivity.
  - apply scan_forward_Some in H as (_ & (item & Hit & Hu) & Hbefore).
    rewrite lookup_drop in Hit. replace (B + (U - B))%nat with U in Hit by lia.
    split; [now exists item|].
    intros k it Hk Hl. apply (Hbefore (k - B)%nat); [lia|].
    rewrite lookup_drop. now replace (B + (k - B))%nat with k by lia.
Qed.

(** Claim C2 (not met by the code).  When the entry at the tentative
    index [B] is itself a user entry the forward scan stops at [B], the
    guard [final_split_index == tentative_split_index] of the backward
    scan holds, and the backward scan runs: as soon as an earlier user
    entry exists, the final split index is the nearest one before [B]
    and not [B]. *)
Theorem C2_backward_scan_overrides_boundary data (B j : nat) item item_j :
  data !! B = Some item -> is_user item = true ->
  (j < B)%nat -> data !! j = Some item_j -> is_user item_j = true ->
  scan_forward (drop B data) B = Some B /\
  exists u item_u,
    final_split_index data B = u /\ (j <= u < B)%nat /\
    data !! u = Some item_u /\ is_user item_u = true.
Proof.
  intros HB HuB Hj Hjl Huj.
  assert (Hfw : scan_forward (drop B data) B = Some B).
  { rewrite (drop_S _ _ _ HB). now apply scan_forward_head. }
  split; [exact Hfw|].
  assert (HlenB : (B < length data)%nat) by (apply lookup_lt_is_Some; eauto).
  assert (Hlen : length (rev (take B data)) = B).
  { rewrite length_rev, length_take. lia. }
  assert (Hrj : rev (take B data) !! (B - 1 - j)%nat = Some item_j).
  { rewrite rev_reverse, reverse_lookup by (rewrite length_take; lia).
    rewrite length_take. replace (min B (length data)) with B by lia.
    rewrite lookup_take_lt by lia. rewrite <- Hjl. f_equal. lia. }
  destruct (scan_backward_finds _ B _ _ Hrj Huj) as [u Hbw].
  destruct (scan_backward_Some _ _ _ Hlen Hbw)
    as (Hlt & (it & Hit & Hu) & Hbefore).
  exists u, it. unfold final_split_index. rewrite Hfw. simpl.
  rewrite Nat.eqb_refl. replace (0 <? B)%nat with true
    by (symmetry; apply Nat.ltb_lt; lia).
  simpl. rewrite Hbw. simpl. split; [reflexivity|].
  assert (Hju : (j <= u)%nat).
  { destruct (le_lt_dec j u) as [|Hc]; [assumption|].
    specialize (Hbefore (B - 1 - j)%nat item_j). rewrite Hbefore in Huj;
      [discriminate|lia|assumption]. }
  split; [lia|]. split; [|assumption].
  rewrite rev_reverse, reverse_lookup in Hit by (rewrite length_take; lia).
  rewrite length_take in Hit. replace (min B (length data)) with B in Hit by lia.
  rewrite lookup_take_lt in Hit by lia. rewrite <- Hit. f_equal. lia.
Qed.

End SplitIndex.

(** ** The fallback of the history compressor *)

Section HistoryFallback.

Context `{rt : Runtime}.





End HistoryFallback.

(** ** The XML form of the history *)

Section XmlHistory.

Context `{rt : Runtime}.







End XmlHistory.

(** ** The extractive summarizer *)

Section Sorting.

Context {A : Type}.
Implicit Types (before : A -> A -> bool) (l : list A).

Lemma insert_by_Permutation before x l :
  Permutation (insert_by before x l) (x :: l).
Proof.
  induction l as [|y l IH]; simpl; [reflexivity|].
  destruct (before y x); [|reflexivity].
  rewrite IH. apply perm_swap.
Qed.

Lemma stable_sort_Permutation before l : Permutation (stable_sort before l) l.
Proof.
  induction l as [|x l IH]; simpl; [reflexivity|].
  unfold stable_sort in *. simpl. rewrite insert_by_Permutation.
  now apply perm_skip.
Qed.

End Sorting.

Lemma insert_ascending (x : nat) (l : list nat) :
  StronglySorted lt l -> ~ In x l ->
  StronglySorted lt (insert_by Nat.ltb x l).
Proof.
  induction l as [|y l IH]; intros Hs Hx; simpl.
  - repeat constructor.
  - apply StronglySorted_inv in Hs as [Hs Hy].
    destruct (Nat.ltb_spec y x) as [Hlt|Hge].
    + constructor.
      * apply IH; [assumption|]. intros Hin; apply Hx; now right.
      * eapply Permutation_Forall;
          [symmetry; apply insert_by_Permutation|].
        constructor; assumption.
    + assert (x <> y) by (intros ->; apply Hx; now left).
      constructor; [now constructor|].
      constructor; [lia|].
      eapply Forall_impl; [exact Hy|]. simpl. intros; lia.
Qed.

(** [sorted] puts distinct indices in strictly ascending order. *)
Lemma sorted_indices_ascending (l : list nat) :
  List.NoDup l -> StronglySorted lt (sorted_indices l).
Proof.
  induction l as [|x l IH]; intros Hnd; [constructor|].
  inversion Hnd as [|? ? Hx Hnd']; subst.
  unfold sorted_indices, stable_sort in *. simpl.
  apply insert_ascending; [now apply IH|].
  intros Hin. apply Hx.
  eapply Permutation_in; [apply (stable_sort_Permutation Nat.ltb)|exact Hin].
Qed.

Lemma fst_enumerate {K} (xs : list K) :
  map fst (enumerate xs) = seq 0 (length xs).
Proof.
  unfold enumerate. generalize 0%nat.
  induction xs as [|x xs IH]; intros s; [reflexivity|].
  simpl. now rewrite IH.
Qed.

Lemma In_take {A} (x : A) (n : nat) (l : list A) : In x (take n l) -> In x l.
Proof.
  revert l; induction n as [|n IH]; intros [|y l]; simpl; try tauto.
  intros [->|H]; [now left|right; now apply IH].
Qed.

Lemma NoDup_take {A} (n : nat) (l : list A) :
  List.NoDup l -> List.NoDup (take n l).
Proof.
  revert l; induction n as [|n IH]; intros [|x l] H; simpl; try constructor.
  - inversion H; subst. intros Hin. apply In_take in Hin. contradiction.
  - inversion H; subst. now apply IH.
Qed.

Lemma py_index_Some {A} (l : list A) (i : nat) (x : A) :
  l !! i = Some x -> py_index l i = Ok x.
Proof. unfold py_index. now intros ->. Qed.

(** Reading the sentences at indices that are all in range raises no
    [IndexError]. *)
Lemma read_indices (sentences : list pystr) (idxs : list nat) :
  Forall (fun i => (i < length sentences)%nat) idxs ->
  exists picked,
    mapM (py_index sentences) idxs = Ok picked /\
    Forall2 (fun i s => sentences !! i = Some s) idxs picked.
Proof.
  induction idxs as [|i idxs IH]; intros H.
  - exists []. split; [reflexivity|constructor].
  - apply Forall_cons in H as [Hi H]. destruct (IH H) as (picked & Hm & Hf).
    destruct (lookup_lt_is_Some_2 sentences i Hi) as [s Hs].
    exists (s :: picked). split.
    + cbn [mapM]. rewrite (py_index_Some _ _ _ Hs), bind_Ok, Hm, bind_Ok.
      reflexivity.
    + now constructor.
Qed.

(** The selection returns as many sentences as asked for, read at
    strictly ascending indices, whatever the scores are. *)
Lemma select_sentences_spec {K} (ltb : K -> K -> bool)
    (sentences : list pystr) (scores : list K) (target : Z) :
  length scores = length sentences ->
  1 <= target <= Z.of_nat (length sentences) ->
  exists idxs picked,
    select_sentences ltb sentences (enumerate scores) target = Ok picked /\
    length picked = Z.to_nat target /\
    StronglySorted lt idxs /\
    Forall2 (fun i s => sentences !! i = Some s) idxs picked.
Proof.
  intros Hlen Ht. unfold select_sentences.
  set (ranked := sort_by_score_desc ltb (enumerate scores)).
  assert (Hperm : Permutation ranked (enumerate scores))
    by apply stable_sort_Permutation.
  rewrite py_slice_to_take by lia.
  set (top := map fst (take (Z.to_nat target) ranked)).
  assert (Hfst : Permutation (map fst ranked) (seq 0 (length sentences))).
  { rewrite <- Hlen, <- fst_enumerate. now apply Permutation_map. }
  assert (Htop_nd : List.NoDup top).
  { subst top. rewrite <- firstn_map. apply NoDup_take.
    eapply Permutation_NoDup; [symmetry; exact Hfst|apply seq_NoDup]. }
  assert (Htop_lt : forall i, In i top -> (i < length sentences)%nat).
  { intros i Hi. subst top. rewrite <- firstn_map in Hi. apply In_take in Hi.
    eapply Permutation_in in Hi; [|exact Hfst]. apply in_seq in Hi. lia. }
  assert (Htop_len : length top = Z.to_nat target).
  { subst top. rewrite length_map, length_firstn.
    rewrite (Permutation_length Hperm). unfold enumerate.
    rewrite length_zip, length_seq. lia. }
  set (idxs := sorted_indices top).
  assert (Hip : Permutation idxs top) by apply stable_sort_Permutation.
  destruct (read_indices sentences idxs) as (picked & Hm & Hf).
  { apply Forall_forall. intros i Hi. apply Htop_lt.
    apply list_elem_of_In in Hi. eapply Permutation_in; [exact Hip|exact Hi]. }
  exists idxs, picked. split; [exact Hm|]. split; [|split].
  - rewrite <- (Forall2_length _ _ _ Hf), (Permutation_length Hip).
    exact Htop_len.
  - now apply sorted_indices_ascending.
  - exact Hf.
Qed.

Section Summarizer.

Context `{tl : TextLibraries}.

Lemma target_sentences_range (n : nat) (r : Q) :
  (1 <= n)%nat -> (0 < r)%Q -> (r <= 1)%Q ->
  Z.max 1 (py_int (inject_Z (Z.of_nat n) * r))
  = Z.max 1 (Qfloor (inject_Z (Z.of_nat n) * r)) /\
  1 <= Z.max 1 (Qfloor (inject_Z (Z.of_nat n) * r)) <= Z.of_nat n.
Proof.
  intros Hn H0 H1. rewrite scaled_count_floor by (now apply Qlt_le_weak).
  split; [reflexivity|]. pose proof (scaled_count_le n r H1). lia.
Qed.

(** Both branches of the [try] statement end in the same selection: the
    TF-IDF scores when the vectorizer returns, the lengths when it
    raises. *)
Lemma selection_of_either_branch (sentences : list pystr) (target : Z) :
  one_score_per_sentence ->
  1 <= target <= Z.of_nat (length sentences) ->
  exists idxs picked,
    try_except
      (sentence_scores ← tfidf_scores sentences;
       select_sentences Qltb sentences (enumerate sentence_scores) target)
      (fun _ =>
         select_sentences Z.ltb sentences
           (enumerate (map (fun s => Z.of_nat (length s)) sentences)) target)
    = Ok picked /\
    length picked = Z.to_nat target /\
    StronglySorted lt idxs /\
    Forall2 (fun i s => sentences !! i = Some s) idxs picked.
Proof.
  intros Hscores Ht.
  destruct (tfidf_scores sentences) as [scores|e] eqn:E.
  - rewrite bind_Ok.
    destruct (select_sentences_spec Qltb sentences scores target)
      as (idxs & picked & Hsel & Hrest); [now apply Hscores|assumption|].
    exists idxs, picked. now rewrite Hsel.
  - destruct (select_sentences_spec Z.ltb sentences
                (map (fun s => Z.of_nat (length s)) sentences) target)
      as (idxs & picked & Hsel & Hrest); [apply length_map|assumption|].
    exists idxs, picked. split; [exact Hsel|exact Hrest].
Qed.

(** What [compress_by_ratio] returns on a text with at least one
    sentence. *)
Lemma compress_by_ratio_selects (text : pystr) (r : Q) :
  one_score_per_sentence ->
  pp_sentences (preprocess_text text) <> [] ->
  (0 < r)%Q -> (r <= 1)%Q ->
  let sentences := pp_sentences (preprocess_text text) in
  let target := Z.max 1 (Qfloor (inject_Z (Z.of_nat (length sentences)) * r)) in
  exists res idxs picked,
    compress_by_ratio text r = Ok res /\
    rr_sentences_kept res = target /\
    rr_sentences_total res = Z.of_nat (length sentences) /\
    Z.of_nat (length picked) = target /\
    StronglySorted lt idxs /\
    Forall2 (fun i s => sentences !! i = Some s) idxs picked /\
    rr_compressed_text res
    = join (sentence_separator (pp_language (preprocess_text text))) picked.
Proof.
  intros Hscores Hne H0 H1 sentences target.
  assert (Hn : (1 <= length sentences)%nat).
  { subst sentences. destruct (pp_sentences _); [congruence|simpl; lia]. }
  destruct (target_sentences_range _ r Hn H0 H1) as [Heq Hrange].
  fold target in Heq, Hrange.
  destruct (selection_of_either_branch sentences target Hscores Hrange)
    as (idxs & picked & Hsel & Hlen & Hsorted & Hread).
  unfold compress_by_ratio. fold sentences.
  clearbody sentences. destruct sentences as [|s0 rest]; [simpl in Hn; lia|].
  rewrite Heq, Hsel, bind_Ok.
  eexists _, idxs, picked. split; [reflexivity|].
  cbn [rr_sentences_kept rr_sentences_total rr_compressed_text].
  repeat split; try assumption; try lia.
  unfold sentence_separator. now destruct (bool_decide _).
Qed.


(** Claim C8.  On a text that segments into exactly one sentence,
    [compress_by_ratio] returns that sentence as the compressed text,
    for every ratio in (0,1]. *)
Theorem C8_single_sentence_unchanged (text : pystr) (r : Q) (s : pystr) :
  one_score_per_sentence ->
  pp_sentences (preprocess_text text) = [s] ->
  (0 < r)%Q -> (r <= 1)%Q ->
  exists res,
    compress_by_ratio text r = Ok res /\ rr_compressed_text res = s.
Proof.
  intros Hscores Hs H0 H1.
  destruct (compress_by_ratio_selects text r Hscores)
    as (res & idxs & picked & Hres & Hk & Ht & Hlen & Hsorted & Hread & Htext);
    try assumption.
  { rewrite Hs. discriminate. }
  exists res. split; [exact Hres|]. rewrite Htext.
  rewrite Hs in *. simpl length in *.
  assert (Hone : Z.max 1 (Qfloor (inject_Z (Z.of_nat 1) * r)) = 1).
  { pose proof (scaled_count_le 1 r H1). lia. }
  rewrite Hone in Hlen.
  destruct picked as [|p [|p' picked]]; simpl in Hlen; try lia.
  inversion Hread as [|i p0 idxs' l' Hi Hrest]; subst.
  inversion Hrest; subst.
  destruct i as [|i]; simpl in Hi.
  - now injection Hi as ->.
  - discriminate.
Qed.

End Summarizer.

(** ** The section writers *)

Section WriterFacts.

Context `{env : WriterEnv}.

Lemma initialized_file_exists (path : pystr) (fs : gmap pystr pystr) :
  exists xml,
    initialize_context_file path fs !! path = Some xml /\
    (forall old, fs !! path = Some old ->
       xml = old /\ initialize_context_file path fs = fs) /\
    (fs !! path = None -> xml = initial_context_xml).
Proof.
  unfold initialize_context_file. destruct (fs !! path) as [old|] eqn:E.
  - exists old. rewrite E. split; [reflexivity|]. split; [|discriminate].
    intros ? [= <-]. now split.
  - exists initial_context_xml. rewrite lookup_insert_eq.
    split; [reflexivity|]. split; [discriminate|reflexivity].
Qed.

(** Claim C10.  For a section name other than the four known ones,
    [add_content_to_section] raises nothing and returns the content of
    the context file (the file as initialized when it did not exist);
    writing it back leaves the files as they were after initialization,
    and when the file existed the files are exactly those before the
    call: nothing is appended. *)
Theorem C10_unknown_section_is_noop (section content role : pystr)
    (user_id : option pystr) (fs : gmap pystr pystr) :
  section <> lit "BACKGROUND" -> section <> lit "PLAN" ->
  section <> lit "SUB_APP" -> section <> lit "HISTORY" ->
  let path := context_file_path user_id in
  let fs0 := initialize_context_file path fs in
  exists xml_content,
    fs0 !! path = Some xml_content /\
    add_content_to_section section content role user_id fs
    = (fs0, Ok xml_content) /\
    (forall existing, fs !! path = Some existing ->
       xml_content = existing /\ fs0 = fs).
Proof.
  intros Hb Hp Hs Hh path fs0.
  destruct (initialized_file_exists path fs) as (xml & Hx & Hold & _).
  exists xml. fold fs0 in Hx, Hold. split; [exact Hx|]. split; [|exact Hold].
  unfold add_content_to_section. fold path. fold fs0.
  rewrite !bool_decide_eq_false_2 by assumption.
  rewrite Hx. cbn [default from_option]. unfold id.
  now rewrite insert_id.
Qed.

End WriterFacts.

(** * Sample runs of the properties *)


(** [stamped_document] is within the default budget of 1000 tokens. *)
Lemma C6_witness :
  count_tokens plain stamped_document <= default 1000 (cfg_max_token empty_config) /\
  compress_content plain stamped_document empty_config = ([], Ok stamped_document).
Proof.
  assert (H : count_tokens plain stamped_document
              <= default 1000 (cfg_max_token empty_config))
    by (vm_compute; discriminate).
  split; [exact H|]. exact (C6_within_budget_unchanged plain stamped_document empty_config H).
Defined.

(** Three words against a budget of one token. *)
Lemma C1_witness :
  client plain = None /\
  default 1000 (cfg_max_token (budget_config 1)) < count_tokens plain (lit "alpha beta gamma") /\
  _compress_text_simple plain (lit "alpha beta gamma") [lit "all"] 1 (1 # 4)
  = Raise UnboundLocalError /\
  compress_content plain (lit "alpha beta gamma") (budget_config 1)
  = ([FallbackStage], Raise UnboundLocalError).
Proof.
  assert (H : default 1000 (cfg_max_token (budget_config 1))
              < count_tokens plain (lit "alpha beta gamma"))
    by (vm_compute; reflexivity).
  destruct (C1_fallback_packer_raises plain (lit "alpha beta gamma")
              (budget_config 1) eq_refl H) as [Hs Hc].
  split; [reflexivity|]. split; [exact H|]. split.
  - exact (Hs [lit "all"] (1 # 4)%Q).
  - exact (Hc eq_refl eq_refl).
Defined.

(** Two user turns, the tentative index on the second one. *)
Lemma C2_witness :
  two_user_history !! 1%nat = Some (entry (lit "user") (lit "b")) /\
  tentative_split_index plain 12 two_user_history = 1%nat /\
  final_split_index two_user_history 1 = 0%nat.
Proof.
  split; [reflexivity|]. split; [vm_compute; reflexivity|].
  destruct (C2_backward_scan_overrides_boundary two_user_history 1 0
              (entry (lit "user") (lit "b")) (entry (lit "user") (lit "a"))
              eq_refl eq_refl (le_n 1) eq_refl eq_refl)
    as (_ & u & item_u & Hu & Hrange & _).
  rewrite Hu. lia.
Defined.






(** The sample vectorizer scores every sentence. *)
Lemma sample_scores_per_sentence : one_score_per_sentence.
Proof. intros sentences scores [= <-]. apply length_map. Qed.


(** One sentence and ratio 0.3. *)
Lemma C8_witness :
  pp_sentences (preprocess_text single_sentence_text)
  = [lit "Only one sentence here"] /\
  exists res,
    compress_by_ratio single_sentence_text (3 # 10) = Ok res /\
    rr_compressed_text res = lit "Only one sentence here".
Proof.
  assert (H : pp_sentences (preprocess_text single_sentence_text)
              = [lit "Only one sentence here"]) by (vm_compute; reflexivity).
  split; [exact H|].
  exact (C8_single_sentence_unchanged single_sentence_text (3 # 10)
           (lit "Only one sentence here") sample_scores_per_sentence H
           ltac:(reflexivity) ltac:(vm_compute; discriminate)).
Defined.

(** A section named NOTES, on files that hold a context file. *)
Lemma C10_witness :
  lit "NOTES" <> lit "BACKGROUND" /\ lit "NOTES" <> lit "PLAN" /\
  lit "NOTES" <> lit "SUB_APP" /\ lit "NOTES" <> lit "HISTORY" /\
  add_content_to_section (lit "NOTES") (lit "remember this") (lit "user")
    (Some (lit "u1")) {[ context_file_path (Some (lit "u1")) := stamped_document ]}
  = ({[ context_file_path (Some (lit "u1")) := stamped_document ]},
     Ok stamped_document).
Proof.
  assert (Hb : lit "NOTES" <> lit "BACKGROUND") by (vm_compute; discriminate).
  assert (Hp : lit "NOTES" <> lit "PLAN") by (vm_compute; discriminate).
  assert (Hs : lit "NOTES" <> lit "SUB_APP") by (vm_compute; discriminate).
  assert (Hh : lit "NOTES" <> lit "HISTORY") by (vm_compute; discriminate).
  repeat (split; [assumption|]).
  destruct (C10_unknown_section_is_noop (lit "NOTES") (lit "remember this")
              (lit "user") (Some (lit "u1"))
              {[ context_file_path (Some (lit "u1")) := stamped_document ]}
              Hb Hp Hs Hh) as (xml & _ & Hrun & Hsame).
  destruct (Hsame stamped_document (lookup_singleton_eq _ _)) as [-> Hfs].
  rewrite Hrun, Hfs. reflexivity.
Defined.

(** The timestamp of the entry of [stamped_document] is gone from the
    document the history stage returns for it. *)
Example stamped_document_loses_timestamp :
  exists r,
    _compress_sectional_history plain stamped_document 500 (3 # 10) = Ok r /\
    contains (lit "timestamp=") stamped_document = true /\
    contains (lit "timestamp=") (hr_compressed_content r) = false /\
    hr_compressed_content r
    = lit "<context>" ++ [10%N] ++ lit "    " ++ [10%N] ++
      lit "    <HISTORY>" ++ [10%N] ++
      lit "        <entry role=" ++ dq ++ lit "user" ++ dq ++
      lit ">hello there</entry>" ++ [10%N] ++
      lit "    </HISTORY>" ++ [10%N] ++ lit "</context>".
Proof.
  eexists. split; [vm_compute; reflexivity|].
  repeat split; vm_compute; reflexivity.
Qed.

(** The whole history compressor on two user turns with a budget that
    holds the last one: the tentative index is 1, the final index is 0,
    and the history is returned as it is. *)
Example two_user_history_run :
  12 < count_tokens plain (dumps (JArr two_user_history)) /\
  json_loads (dumps (JArr two_user_history)) = Some (JArr two_user_history) /\
  tentative_split_index plain 12 two_user_history = 1%nat /\
  final_split_index two_user_history 1 = 0%nat /\
  exists r,
    _compress_json_history plain (dumps (JArr two_user_history)) 12 (1 # 2)
      8192 (1 # 10) = Ok r /\
    hr_message r = lit "No items to compress" /\
    hr_compressed_content r = dumps (JArr two_user_history).
Proof.
  repeat split; try (vm_compute; reflexivity).
  eexists. split; [vm_compute; reflexivity|]. split; vm_compute; reflexivity.
Qed.

(** The boundary example of the specification: six entries of 50 tokens,
    120 tokens to preserve, ratio 0.5.  The tentative index is 4, the
    forward scan moves the split to 5, and the fallback keeps 2 of the 5
    head entries. *)
Example boundary_history_run :
  map (fun item => count_tokens plain (dumps item)) boundary_history
  = [50; 50; 50; 50; 50; 50] /\
  tentative_split_index plain 120 boundary_history = 4%nat /\
  final_split_index boundary_history 4 = 5%nat /\
  keep_items (take 5 boundary_history) (1 # 2) = 2.
Proof. repeat split; vm_compute; reflexivity. Qed.


(** * Further properties of the code *)

(** ** The token estimator, continued *)

Lemma findall_words_nonempty (w : N -> bool) text : forall prev cur,
  (forall acc, cur = Some acc -> acc <> []) ->
  Forall (fun word => word <> []) (findall_words w prev cur text).
Proof.
  induction text as [|c rest IH]; intros prev cur Hcur; cbn [findall_words].
  - destruct cur as [acc|]; [|constructor].
    constructor; [|constructor]. intros Hr.
    apply (Hcur acc eq_refl). apply (f_equal (@rev N)) in Hr.
    now rewrite rev_involutive in Hr.
  - destruct (is_ascii_letter c).
    + destruct cur as [acc|].
      * apply IH. intros ? [= <-]. discriminate.
      * destruct prev; apply IH; intros ?; [discriminate|].
        intros [= <-]. discriminate.
    + destruct (w c); [apply IH; discriminate|].
      destruct cur as [acc|]; [|apply IH; discriminate].
      constructor; [|apply IH; discriminate].
      intros Hr. apply (Hcur acc eq_refl).
      apply (f_equal (@rev N)) in Hr. now rewrite rev_involutive in Hr.
Qed.

Lemma words_count_le_letters (words : list pystr) :
  Forall (fun word => word <> []) words ->
  Z.of_nat (length words) <= sum_len words.
Proof.
  induction 1 as [|word words Hw _ IH]; simpl; [lia|].
  destruct word; [congruence|]. simpl length. lia.
Qed.

Lemma heuristic_value a b c :
  (inject_Z a * (3 # 2) + inject_Z b + inject_Z c * (1 # 2)
   == (3 * a + 2 * b + c) # 2)%Q.
Proof. unfold Qeq, Qplus, Qmult, inject_Z; simpl. lia. Qed.

Section TokenBounds.

Context `{rt : Runtime}.

(** The heuristic estimate in integer arithmetic. *)
Lemma count_tokens_closed_form (self : ContextCompressor) (text : pystr) :
  tokenizer self = None ->
  let words := findall_words word_char false None text in
  let other := Z.of_nat (length text) - cjk_count text - sum_len words in
  0 <= other /\
  count_tokens self text
  = (3 * cjk_count text + 2 * Z.of_nat (length words) + other) / 2.
Proof.
  intros Htok words other.
  assert (Hother : 0 <= other).
  { pose proof (words_and_cjk_fit word_char text false None) as H.
    cbn [default from_option length] in H. unfold id in H.
    subst other words. lia. }
  split; [exact Hother|].
  unfold count_tokens. rewrite Htok, length_findall_cjk.
  fold words. fold other.
  rewrite py_int_floor.
  - rewrite (Qfloor_comp _ _ (heuristic_value _ _ _)). reflexivity.
  - apply heuristic_nonneg; [apply cjk_count_nonneg|lia|exact Hother].
Qed.

(** Property X1.  The heuristic estimate never exceeds one and a half
    tokens per character: twice the estimate is at most three times the
    length of the text. *)
Theorem X1_estimate_at_most_three_halves (self : ContextCompressor)
    (text : pystr) :
  tokenizer self = None ->
  0 <= count_tokens self text /\
  2 * count_tokens self text <= 3 * Z.of_nat (length text).
Proof.
  intros Htok.
  destruct (count_tokens_closed_form self text Htok) as [Hother Heq].
  set (words := findall_words word_char false None text) in *.
  set (other := Z.of_nat (length text) - cjk_count text - sum_len words) in *.
  pose proof (cjk_count_nonneg text) as Hcjk.
  assert (Hw : Z.of_nat (length words) <= sum_len words).
  { apply words_count_le_letters. apply findall_words_nonempty. discriminate. }
  rewrite Heq.
  set (n := 3 * cjk_count text + 2 * Z.of_nat (length words) + other).
  assert (Hn : 0 <= n) by (subst n; lia).
  pose proof (Z.mul_div_le n 2 ltac:(lia)) as Hdiv.
  pose proof (Z.div_pos n 2 Hn ltac:(lia)).
  split; [assumption|]. subst n other. lia.
Qed.

End TokenBounds.

(** ** The split of the history, continued *)

Section SplitBudget.

Context `{rt : Runtime}.

Implicit Types (data items rev_items : list json) (item : json).

Lemma items_tokens_app self items1 items2 :
  items_tokens self (items1 ++ items2)
  = items_tokens self items1 + items_tokens self items2.
Proof.
  unfold items_tokens. induction items1 as [|x l IH]; simpl; [lia|].
  rewrite IH. lia.
Qed.

Lemma items_tokens_rev self items :
  items_tokens self (rev items) = items_tokens self items.
Proof.
  induction items as [|x l IH]; [reflexivity|].
  simpl rev. rewrite items_tokens_app, IH. unfold items_tokens. simpl. lia.
Qed.

(** The backward accumulation stops at the first item that does not
    fit: what it has taken fits, and the next item, if any, does not. *)
Lemma count_preserved_spec self P rev_items : forall used,
  let n := count_preserved self P rev_items used in
  (n <= length rev_items)%nat /\
  (used <= P -> used + items_tokens self (take n rev_items) <= P) /\
  (forall item, rev_items !! n = Some item ->
     P < used + items_tokens self (take n rev_items)
         + count_tokens self (dumps item)).
Proof.
  induction rev_items as [|x rest IH]; intros used; cbn [count_preserved].
  - cbn. split; [lia|]. split; [lia|]. intros item; discriminate.
  - destruct (Z.leb_spec (used + count_tokens self (dumps x)) P) as [Hfit|Hno].
    + specialize (IH (used + count_tokens self (dumps x))).
      cbv zeta in IH. destruct IH as (Hlen & Hsum & Hnext).
      cbn [length take lookup list_lookup]. unfold items_tokens in *.
      cbn [foldr]. split; [lia|]. split.
      * intros _. specialize (Hsum Hfit). lia.
      * intros item Hit. specialize (Hnext item Hit). lia.
    + cbn. split; [lia|]. split; [lia|].
      intros item [= <-]. lia.
Qed.

Lemma tentative_split_le self P data :
  (tentative_split_index self P data <= length data)%nat.
Proof. unfold tentative_split_index. lia. Qed.

(** Property X2.  For a budget [P >= 0] the provisional tail, the entries
    from the tentative index on, costs at most [P] tokens, and it is the
    longest such suffix reached from the end: the entry just before it,
    when there is one, would take the sum over [P]. *)
Theorem X2_tentative_tail_fits_budget (self : ContextCompressor) (P : Z)
    (data : list json) :
  0 <= P ->
  let B := tentative_split_index self P data in
  (B <= length data)%nat /\
  items_tokens self (drop B data) <= P /\
  (forall item, (0 < B)%nat -> data !! (B - 1)%nat = Some item ->
     P < count_tokens self (dumps item) + items_tokens self (drop B data)).
Proof.
  intros HP B.
  pose proof (count_preserved_spec self P (rev data) 0) as H. cbv zeta in H.
  set (n := count_preserved self P (rev data) 0) in *.
  destruct H as (Hn & Hsum & Hnext). rewrite length_rev in Hn.
  assert (HB : B = (length data - n)%nat) by reflexivity.
  assert (Htake : take n (rev data) = rev (drop B data)).
  { rewrite !rev_reverse, take_reverse. now rewrite HB. }
  rewrite Htake, items_tokens_rev in Hsum, Hnext.
  split; [lia|]. split; [lia|].
  intros item HposB Hit. specialize (Hnext item).
  assert (Hrev : rev data !! n = Some item).
  { rewrite rev_reverse, reverse_lookup by lia. rewrite <- Hit. f_equal. lia. }
  specialize (Hnext Hrev). lia.
Qed.

End SplitBudget.

Section SplitLanding.

Implicit Types (data items rev_items : list json) (item : json).

Lemma scan_forward_None items : forall i,
  scan_forward items i = None ->
  forall k item, items !! k = Some item -> is_user item = false.
Proof.
  induction items as [|x rest IH]; intros i H k item Hk; [discriminate|].
  simpl in H. destruct (is_user x) eqn:Ex; [discriminate|].
  destruct k as [|k]; simpl in Hk.
  - now injection Hk as <-.
  - eapply IH; eauto.
Qed.

Lemma scan_backward_None rev_items : forall i,
  scan_backward rev_items i = None ->
  forall k item, rev_items !! k = Some item -> is_user item = false.
Proof.
  induction rev_items as [|x rest IH]; intros i H k item Hk; [discriminate|].
  simpl in H. destruct (is_user x) eqn:Ex; [discriminate|].
  destruct k as [|k]; simpl in Hk.
  - now injection Hk as <-.
  - eapply IH; eauto.
Qed.

Lemma lookup_rev_take data (B k : nat) item :
  (B <= length data)%nat ->
  rev (take B data) !! k = Some item ->
  (k < B)%nat /\ data !! (B - 1 - k)%nat = Some item.
Proof.
  intros HB H.
  assert (Hk : (k < B)%nat).
  { apply lookup_lt_Some in H. rewrite length_rev, length_take in H. lia. }
  split; [exact Hk|].
  rewrite rev_reverse, reverse_lookup in H by (rewrite length_take; lia).
  rewrite length_take in H. replace (min B (length data)) with B in H by lia.
  rewrite lookup_take_lt in H by lia. rewrite <- H. f_equal. lia.
Qed.

(** Property X3.  The final split index stays within the history.  When
    the history holds a user entry, the entry at the final split index
    exists and is a user entry: the preserved tail is not empty and
    starts with a user turn.  When it holds none, the final split index
    is the tentative one. *)
Theorem X3_split_lands_on_user data (B : nat) :
  (B <= length data)%nat ->
  (final_split_index data B <= length data)%nat /\
  (forall k item_k, data !! k = Some item_k -> is_user item_k = true ->
     exists item,
       data !! final_split_index data B = Some item /\ is_user item = true) /\
  ((forall k item_k, data !! k = Some item_k -> is_user item_k = false) ->
   final_split_index data B = B).
Proof.
  intros HB. unfold final_split_index.
  assert (Hlen : length (rev (take B data)) = B)
    by (rewrite length_rev, length_take; lia).
  destruct (scan_forward (drop B data) B) as [U|] eqn:Efw;
    cbn [default from_option]; unfold id.
  - destruct (scan_forward_Some _ _ _ Efw) as (HBU & (itU & HitU & HuU) & _).
    rewrite lookup_drop in HitU.
    replace (B + (U - B))%nat with U in HitU by lia.
    assert (HU : (U < length data)%nat) by (apply lookup_lt_is_Some; eauto).
    destruct ((U =? B)%nat && (0 <? B)%nat) eqn:Eguard.
    + destruct (scan_backward (rev (take B data)) B) as [u|] eqn:Ebw;
        cbn [default from_option]; unfold id.
      * destruct (scan_backward_Some _ _ _ Hlen Ebw)
          as (Hlt & (it & Hit & Hu) & _).
        destruct (lookup_rev_take _ _ _ _ HB Hit) as [_ Hd].
        replace (B - 1 - (B - 1 - u))%nat with u in Hd by lia.
        split; [lia|]. split; [intros; now exists it|].
        intros Hnone. rewrite (Hnone _ _ HitU) in HuU. discriminate.
      * unfold id. split; [lia|]. split; [intros; now exists itU|].
        intros Hnone. rewrite (Hnone _ _ HitU) in HuU. discriminate.
    + unfold id. split; [lia|]. split; [intros; now exists itU|].
      intros Hnone. rewrite (Hnone _ _ HitU) in HuU. discriminate.
  - unfold id. rewrite Nat.eqb_refl. cbn [andb].
    pose proof (scan_forward_None _ _ Efw) as Hafter.
    destruct (0 <? B)%nat eqn:EB.
    + destruct (scan_backward (rev (take B data)) B) as [u|] eqn:Ebw;
        cbn [default from_option]; unfold id.
      * destruct (scan_backward_Some _ _ _ Hlen Ebw)
          as (Hlt & (it & Hit & Hu) & _).
        destruct (lookup_rev_take _ _ _ _ HB Hit) as [_ Hd].
        replace (B - 1 - (B - 1 - u))%nat with u in Hd by lia.
        split; [lia|]. split; [intros; now exists it|].
        intros Hnone. rewrite (Hnone _ _ Hd) in Hu. discriminate.
      * pose proof (scan_backward_None _ _ Ebw) as Hbefore.
        split; [lia|]. split; [|reflexivity].
        intros k item_k Hk Huk. exfalso.
        destruct (le_lt_dec B k) as [Hge|Hlt].
        -- assert (Hd : drop B data !! (k - B)%nat = Some item_k).
           { rewrite lookup_drop. now replace (B + (k - B))%nat with k by lia. }
           rewrite (Hafter _ _ Hd) in Huk. discriminate.
        -- assert (Hr : rev (take B data) !! (B - 1 - k)%nat = Some item_k).
           { rewrite rev_reverse, reverse_lookup by (rewrite length_take; lia).
             rewrite length_take. replace (min B (length data)) with B by lia.
             rewrite lookup_take_lt by lia. rewrite <- Hk. f_equal. lia. }
           rewrite (Hbefore _ _ Hr) in Huk. discriminate.
    + apply Nat.ltb_ge in EB. assert (B = 0%nat) by lia. subst B.
      split; [lia|]. split; [|reflexivity].
      intros k item_k Hk Huk. exfalso.
      rewrite drop_0 in Hafter. rewrite (Hafter _ _ Hk) in Huk. discriminate.
Qed.

End SplitLanding.



(** ** The generative path of the history compressor *)

Section HistoryGenerative.

Context `{rt : Runtime}.

(** Property X4.  With a client whose request is answered, the whole head
    is replaced by one entry with role [system] whose message is the
    stripped answer, and the tail follows unchanged: the compressed
    history has one entry more than the tail, and the run reports
    success. *)
Theorem X4_answer_replaces_head (self : ContextCompressor) (cl : LLMClient)
    (content : pystr) (P : Z) (c : Q) (max_model_tokens : Z) (temperature : Q)
    (data : list json) (response : pystr) :
  P < count_tokens self content -> 0 <= P ->
  json_loads content = Some (JArr data) ->
  client self = Some cl ->
  let split := final_split_index data (tentative_split_index self P data) in
  let head := take split data in
  let tail := drop split data in
  head <> [] ->
  let target_tokens :=
    py_int (inject_Z (count_tokens self (dumps (JArr head))) * c) in
  chat_completion cl sectional_system_message
    (_create_sectional_compression_prompt (dumps (JArr head)) target_tokens)
    temperature (Z.min (target_tokens + 500) max_model_tokens)
  = Ok response ->
  exists r,
    _compress_json_history self content P c max_model_tokens temperature = Ok r /\
    hr_compressed_content r
    = dumps (JArr (entry (lit "system") (strip response) :: tail)) /\
    hr_success r = Some true.
Proof.
  intros Hover HP Hload Hcl split head tail Hne target Hanswer.
  assert (Hitems : compress_items self head c max_model_tokens temperature
                   = [entry (lit "system") (strip response)]).
  { unfold compress_items. rewrite Hcl. fold target. now rewrite Hanswer. }
  unfold _compress_json_history.
  replace (count_tokens self content <=? P) with false
    by (symmetry; apply Z.leb_gt; lia).
  rewrite Hload. fold split. fold head. fold tail.
  destruct head as [|x head'] eqn:Eh; [congruence|].
  rewrite <- Eh in *. rewrite Hitems.
  replace (count_tokens self content =? 0) with false
    by (symmetry; apply Z.eqb_neq; lia).
  eexists. split; [reflexivity|]. split; reflexivity.
Qed.

End HistoryGenerative.

(** ** The orchestrator, continued *)

Section OrchestratorBudget.

Context `{rt : Runtime}.

Lemma simple_compression_result self content target_modules max_tokens ratio out :
  _compress_text_simple self content target_modules max_tokens ratio = Ok out ->
  out = content /\ count_tokens self content <= max_tokens.
Proof.
  unfold _compress_text_simple.
  destruct (Z.leb_spec (count_tokens self content) max_tokens); [|discriminate].
  intros [= <-]. now split.
Qed.

(** Property X9.  Without a client, whatever [compress_content] returns
    is within the budget: a returned string never has an estimate above
    [max_token], whichever optional stages ran and whatever they did. *)
Theorem X9_returned_string_within_budget (self : ContextCompressor)
    (content : pystr) (config : Config) (stages : list Stage) (out : pystr) :
  client self = None ->
  compress_content self content config = (stages, Ok out) ->
  count_tokens self out <= default 1000 (cfg_max_token config).
Proof.
  intros Hcl. unfold compress_content. rewrite Hcl.
  destruct (Z.leb_spec (count_tokens self content)
              (default 1000 (cfg_max_token config))) as [Hle|Hgt].
  - intros [= _ <-]. exact Hle.
  - unfold stage_bind, stage_run, stage_ret.
    repeat match goal with
           | |- context [if ?b then _ else _] => destruct b
           | |- context [match ?x with Ok _ => _ | Raise _ => _ end] =>
               destruct x eqn:?
           end; intros H; try discriminate;
      injection H as _ H;
      match type of H with
      | _ = Ok out => idtac
      end.
    all: try (apply simple_compression_result in H as [-> Hb]; exact Hb).
Qed.

(** Property X10.  With a client whose requests all fail and the optional
    stages off, [compress_content] returns a content that is over the
    budget unchanged: the failure is absorbed inside [compress_text] and
    the fallback packer is not run. *)
Theorem X10_failed_generation_returns_input (self : ContextCompressor)
    (cl : LLMClient) (content : pystr) (config : Config) :
  client self = Some cl ->
  generative_unavailable self ->
  default 1000 (cfg_max_token config) < count_tokens self content ->
  default false (cfg_use_tf_idf config) = false ->
  default false (cfg_use_history_compression config) = false ->
  compress_content self content config = ([GenerativeStage], Ok content).
Proof.
  intros Hcl Hgen Hover Ht Hh. unfold compress_content.
  replace (count_tokens self content <=? default 1000 (cfg_max_token config))
    with false by (symmetry; apply Z.leb_gt; lia).
  rewrite Ht, Hh, Hcl. cbn [andb stage_bind stage_ret stage_run app].
  unfold compress_text. rewrite Hcl.
  unfold generative_unavailable in Hgen. rewrite Hcl in Hgen.
  match goal with |- context [if ?b then _ else _] => destruct b end.
  - reflexivity.
  - match goal with |- context [chat_completion cl ?a ?b ?c ?d] =>
      destruct (Hgen a b c d) as [e ->] end.
    reflexivity.
Qed.

Lemma compress_text_returns self cl content target_modules max_model_tokens
    ratio temperature output_format :
  client self = Some cl ->
  exists r,
    compress_text self content target_modules max_model_tokens ratio
      temperature output_format = Ok r.
Proof.
  intros Hcl. unfold compress_text. rewrite Hcl.
  destruct (_ <=? _); [eexists; reflexivity|].
  destruct (chat_completion _ _ _ _ _); eexists; reflexivity.
Qed.

(** Property X11.  With a client configured the fallback packer is never
    run, whatever the configuration and the outcome of the request. *)
Theorem X11_client_never_falls_back (self : ContextCompressor)
    (cl : LLMClient) (content : pystr) (config : Config) :
  client self = Some cl ->
  ~ In FallbackStage (fst (compress_content self content config)).
Proof.
  intros Hcl. unfold compress_content. rewrite Hcl.
  destruct (_ <=? _); [simpl; tauto|].
  unfold stage_bind, stage_run, stage_ret.
  repeat first
    [ progress cbv beta iota
    | match goal with
      | |- context [compress_text self ?p ?a ?b ?c ?d ?e] =>
          destruct (compress_text_returns self cl p a b c d e Hcl) as [? ->]
      | |- context [if ?b then _ else _] => destruct b
      | |- context [match ?x with Ok _ => _ | Raise _ => _ end] =>
          destruct x eqn:?
      end ];
    simpl; intros H;
    repeat (destruct H as [H|H]; [discriminate|]); exact H.
Qed.

End OrchestratorBudget.



(** ** The extractive summarizer, continued *)

Lemma In_drop {A} (x : A) (n : nat) (l : list A) : In x (drop n l) -> In x l.
Proof.
  revert l; induction n as [|n IH]; intros [|y l]; simpl; try tauto.
  intros H. right. now apply IH.
Qed.

Section Ranking.

Context {K : Type} (ltb : K -> K -> bool).

(** The order of the keys: [ltb] is asymmetric and its complement is
    transitive, as [<] is on the scores and on the lengths. *)
Hypothesis ltb_asym : forall a b, ltb a b = true -> ltb b a = false.
Hypothesis geb_trans :
  forall a b c, ltb a b = false -> ltb b c = false -> ltb a c = false.

Let not_below (a b : nat * K) : Prop := ltb (snd a) (snd b) = false.

Lemma insert_ranked (x : nat * K) (l : list (nat * K)) :
  StronglySorted not_below l ->
  StronglySorted not_below
    (insert_by (fun y x => ltb (snd x) (snd y)) x l).
Proof.
  induction l as [|y l IH]; intros Hs; simpl.
  - repeat constructor.
  - apply StronglySorted_inv in Hs as [Hs Hy].
    destruct (ltb (snd x) (snd y)) eqn:E.
    + constructor; [now apply IH|].
      eapply Permutation_Forall; [symmetry; apply insert_by_Permutation|].
      constructor; [|exact Hy]. unfold not_below. now apply ltb_asym.
    + constructor; [now constructor|].
      constructor; [exact E|].
      eapply Forall_impl; [exact Hy|].
      intros z Hz. unfold not_below in *. eapply geb_trans; eassumption.
Qed.

(** The ranking is in descending order of the keys. *)
Lemma ranked_descending (l : list (nat * K)) :
  StronglySorted not_below (sort_by_score_desc ltb l).
Proof.
  induction l as [|x l IH]; [constructor|].
  unfold sort_by_score_desc, stable_sort in *. simpl.
  now apply insert_ranked.
Qed.

Lemma sorted_prefix_dominates (l : list (nat * K)) (k : nat) a b :
  StronglySorted not_below l ->
  In a (take k l) -> In b (drop k l) -> not_below a b.
Proof.
  revert k; induction l as [|x l IH]; intros k Hs Ha Hb.
  - destruct k; simpl in Ha; contradiction.
  - destruct k as [|k]; [simpl in Ha; contradiction|].
    apply StronglySorted_inv in Hs as [Hs Hx].
    simpl in Ha, Hb. destruct Ha as [<-|Ha].
    + rewrite Forall_forall in Hx. apply Hx.
      apply list_elem_of_In. eapply In_drop; eassumption.
    + eapply IH; eassumption.
Qed.

End Ranking.

Lemma Qltb_asym a b : Qltb a b = true -> Qltb b a = false.
Proof.
  unfold Qltb. intros H. apply negb_true_iff in H. apply negb_false_iff.
  apply Qle_bool_iff. destruct (Qle_bool b a) eqn:E; [discriminate|].
  destruct (Qlt_le_dec a b) as [Hlt|Hle]; [now apply Qlt_le_weak|].
  apply Qle_bool_iff in Hle. congruence.
Qed.

Lemma Qltb_false a b : Qltb a b = false <-> (b <= a)%Q.
Proof.
  unfold Qltb. rewrite negb_false_iff. apply Qle_bool_iff.
Qed.

Lemma Qgeb_trans a b c :
  Qltb a b = false -> Qltb b c = false -> Qltb a c = false.
Proof.
  rewrite !Qltb_false. intros H1 H2. eapply Qle_trans; eassumption.
Qed.

Lemma Zltb_asym a b : (a <? b) = true -> (b <? a) = false.
Proof. intros H. apply Z.ltb_lt in H. apply Z.ltb_ge. lia. Qed.

Lemma Zgeb_trans a b c :
  (a <? b) = false -> (b <? c) = false -> (a <? c) = false.
Proof. rewrite !Z.ltb_ge. lia. Qed.

Lemma In_enumerate {K} (xs : list K) (i : nat) (x : K) :
  In (i, x) (enumerate xs) <-> xs !! i = Some x.
Proof.
  unfold enumerate.
  assert (H : forall s, In (i, x) (zip (seq s (length xs)) xs)
                        <-> (s <= i)%nat /\ xs !! (i - s)%nat = Some x).
  { induction xs as [|y xs IH]; intros s; simpl.
    - split; [tauto|]. intros [_ H]. discriminate.
    - rewrite IH. split.
      + intros [[= <- <-]|[Hle Hl]].
        * split; [lia|]. now replace (s - s)%nat with 0%nat by lia.
        * split; [lia|]. now replace (i - s)%nat with (S (i - S s)) by lia.
      + intros [Hle Hl]. destruct (Nat.eq_dec s i) as [<-|Hne].
        * left. replace (s - s)%nat with 0%nat in Hl by lia.
          simpl in Hl. now injection Hl as <-.
        * right. split; [lia|].
          replace (i - s)%nat with (S (i - S s)) in Hl by lia. exact Hl. }
  rewrite H. replace (i - 0)%nat with i by lia. intuition lia.
Qed.

(** The indices that the selection keeps. *)
Lemma select_sentences_indices {K} (ltb : K -> K -> bool)
    (sentences : list pystr) (scores : list K) (target : Z) :
  length scores = length sentences ->
  1 <= target <= Z.of_nat (length sentences) ->
  let ranked := sort_by_score_desc ltb (enumerate scores) in
  let idxs := sorted_indices (map fst (take (Z.to_nat target) ranked)) in
  exists picked,
    select_sentences ltb sentences (enumerate scores) target = Ok picked /\
    Forall2 (fun i s => sentences !! i = Some s) idxs picked.
Proof.
  intros Hlen Ht ranked idxs. unfold select_sentences.
  rewrite py_slice_to_take by lia. fold ranked. fold idxs.
  apply read_indices. apply Forall_forall. intros i Hi.
  apply list_elem_of_In in Hi.
  eapply Permutation_in in Hi; [|apply stable_sort_Permutation].
  rewrite <- firstn_map in Hi. apply In_take in Hi.
  eapply Permutation_in in Hi;
    [|apply Permutation_map, stable_sort_Permutation].
  rewrite fst_enumerate, Hlen in Hi. apply in_seq in Hi. lia.
Qed.

(** Every kept index carries a key that no dropped index exceeds. *)
Lemma kept_dominate_dropped {K} (ltb : K -> K -> bool)
    (scores : list K) (k : nat) :
  (forall a b, ltb a b = true -> ltb b a = false) ->
  (forall a b c, ltb a b = false -> ltb b c = false -> ltb a c = false) ->
  let ranked := sort_by_score_desc ltb (enumerate scores) in
  let idxs := sorted_indices (map fst (take k ranked)) in
  forall i j si sj,
    In i idxs -> ~ In j idxs ->
    scores !! i = Some si -> scores !! j = Some sj ->
    ltb si sj = false.
Proof.
  intros Hasym Htrans ranked idxs i j si sj Hi Hj Hsi Hsj.
  assert (Hperm : Permutation ranked (enumerate scores))
    by apply stable_sort_Permutation.
  assert (Hidx : forall x, In x idxs <-> In x (map fst (take k ranked))).
  { intros x. split; apply Permutation_in;
      [|symmetry]; apply stable_sort_Permutation. }
  assert (Hnd : List.NoDup (map fst ranked)).
  { eapply Permutation_NoDup;
      [symmetry; apply Permutation_map; exact Hperm|].
    rewrite fst_enumerate. apply seq_NoDup. }
  assert (Hkept : In (i, si) (take k ranked)).
  { apply Hidx in Hi. apply in_map_iff in Hi as ([i' s] & Heq & Hin).
    simpl in Heq. subst i'.
    assert (In (i, s) (enumerate scores)).
    { eapply Permutation_in; [exact Hperm|]. eapply In_take; exact Hin. }
    apply In_enumerate in H. rewrite Hsi in H. injection H as ->. exact Hin. }
  assert (Hdropped : In (j, sj) (drop k ranked)).
  { assert (Hin : In (j, sj) ranked).
    { eapply Permutation_in; [symmetry; exact Hperm|]. now apply In_enumerate. }
    rewrite <- (firstn_skipn k ranked) in Hin. apply in_app_or in Hin.
    destruct Hin as [Hin|Hin]; [|exact Hin].
    exfalso. apply Hj. apply Hidx. apply in_map_iff. now exists (j, sj). }
  exact (sorted_prefix_dominates ltb ranked k _ _
           (ranked_descending ltb Hasym Htrans _) Hkept Hdropped).
Qed.

Lemma ascending_length_bound (l : list nat) : forall lo hi,
  StronglySorted lt l -> Forall (fun i => (lo <= i < hi)%nat) l ->
  (length l <= hi - lo)%nat.
Proof.
  induction l as [|x l IH]; intros lo hi Hs Hr; simpl; [lia|].
  apply StronglySorted_inv in Hs as [Hs Hx].
  apply Forall_cons in Hr as [Hxr Hr].
  assert (H : (length l <= hi - S x)%nat).
  { apply IH; [assumption|]. rewrite Forall_forall in *.
    intros i Hi. specialize (Hx i Hi). specialize (Hr i Hi). lia. }
  lia.
Qed.

(** As many strictly ascending indices as there are positions are all
    the positions. *)
Lemma ascending_full_range (l : list nat) : forall a,
  StronglySorted lt l ->
  Forall (fun i => (a <= i < a + length l)%nat) l ->
  l = seq a (length l).
Proof.
  induction l as [|x l IH]; intros a Hs Hr; [reflexivity|].
  apply StronglySorted_inv in Hs as [Hs Hx].
  apply Forall_cons in Hr as [Hxr Hr]. simpl length in *.
  assert (Hlen : (length l <= a + S (length l) - S x)%nat).
  { apply ascending_length_bound; [assumption|]. rewrite Forall_forall in *.
    intros i Hi. specialize (Hx i Hi). specialize (Hr i Hi). lia. }
  assert (x = a) by lia. subst x. simpl. f_equal.
  apply IH; [assumption|]. rewrite Forall_forall in *.
  intros i Hi. specialize (Hx i Hi). specialize (Hr i Hi). lia.
Qed.

Lemma read_full_range (sentences picked : list pystr) :
  Forall2 (fun i s => sentences !! i = Some s)
    (seq 0 (length sentences)) picked ->
  picked = sentences.
Proof.
  intros H. apply list_eq. intros i.
  destruct (lt_dec i (length sentences)) as [Hlt|Hge].
  - destruct (Forall2_lookup_l _ _ _ i i H) as (s & Hs & Hread).
    { apply lookup_seq. lia. }
    now rewrite Hs, Hread.
  - rewrite (lookup_ge_None_2 sentences) by lia.
    apply lookup_ge_None_2. rewrite <- (Forall2_length _ _ _ H), length_seq. lia.
Qed.

Section SummarizerRanking.

Context `{tl : TextLibraries}.

(** Property X12.  The summarizer keeps the best-ranked sentences: when
    the vectorizer returns the scores, no dropped sentence has a higher
    score than a kept one; when it raises, no dropped sentence is longer
    than a kept one. *)
Theorem X12_kept_sentences_rank_highest (text : pystr) (r : Q) :
  one_score_per_sentence ->
  let sentences := pp_sentences (preprocess_text text) in
  sentences <> [] -> (0 < r)%Q -> (r <= 1)%Q ->
  exists res idxs picked,
    compress_by_ratio text r = Ok res /\
    Forall2 (fun i s => sentences !! i = Some s) idxs picked /\
    rr_compressed_text res
    = join (sentence_separator (pp_language (preprocess_text text))) picked /\
    (forall scores i j si sj,
       tfidf_scores sentences = Ok scores ->
       In i idxs -> ~ In j idxs ->
       scores !! i = Some si -> scores !! j = Some sj -> (sj <= si)%Q) /\
    (forall e i j si sj,
       tfidf_scores sentences = Raise e ->
       In i idxs -> ~ In j idxs ->
       sentences !! i = Some si -> sentences !! j = Some sj ->
       (length sj <= length si)%nat).
Proof.
  intros Hscores sentences Hne H0 H1.
  assert (Hn : (1 <= length sentences)%nat).
  { destruct sentences; [congruence|simpl; lia]. }
  destruct (target_sentences_range _ r Hn H0 H1) as [Heq Hrange].
  set (target := Z.max 1 (Qfloor (inject_Z (Z.of_nat (length sentences)) * r)))
    in *.
  assert (Hsel : exists idxs picked,
    try_except
      (sentence_scores ← tfidf_scores sentences;
       select_sentences Qltb sentences (enumerate sentence_scores) target)
      (fun _ =>
         select_sentences Z.ltb sentences
           (enumerate (map (fun s => Z.of_nat (length s)) sentences)) target)
    = Ok picked /\
    Forall2 (fun i s => sentences !! i = Some s) idxs picked /\
    (forall scores i j si sj,
       tfidf_scores sentences = Ok scores ->
       In i idxs -> ~ In j idxs ->
       scores !! i = Some si -> scores !! j = Some sj -> (sj <= si)%Q) /\
    (forall e i j si sj,
       tfidf_scores sentences = Raise e ->
       In i idxs -> ~ In j idxs ->
       sentences !! i = Some si -> sentences !! j = Some sj ->
       (length sj <= length si)%nat)).
  { destruct (tfidf_scores sentences) as [scores|e] eqn:E.
    - pose proof (Hscores _ _ E) as Hlen.
      destruct (select_sentences_indices Qltb sentences scores target
                  Hlen Hrange) as (picked & Hsel & Hread).
      rewrite bind_Ok. cbn [try_except]. rewrite Hsel.
      eexists _, picked. split; [reflexivity|]. split; [exact Hread|].
      split; [|intros; discriminate].
      intros scores' i j si sj [= <-] Hi Hj Hsi Hsj.
      apply Qltb_false.
      exact (kept_dominate_dropped Qltb scores (Z.to_nat target) Qltb_asym
               Qgeb_trans i j si sj Hi Hj Hsi Hsj).
    - destruct (select_sentences_indices Z.ltb sentences
                  (map (fun s => Z.of_nat (length s)) sentences) target
                  (length_map _ _) Hrange) as (picked & Hsel & Hread).
      cbn [mbind result_bind rbind try_except]. rewrite Hsel.
      eexists _, picked. split; [reflexivity|]. split; [exact Hread|].
      split; [intros; discriminate|].
      intros e' i j si sj _ Hi Hj Hsi Hsj.
      pose proof (kept_dominate_dropped Z.ltb
                    (map (fun s => Z.of_nat (length s)) sentences)
                    (Z.to_nat target) Zltb_asym Zgeb_trans i j
                    (Z.of_nat (length si)) (Z.of_nat (length sj)) Hi Hj) as H.
      rewrite !list_lookup_fmap, Hsi, Hsj in H.
      specialize (H eq_refl eq_refl). apply Z.ltb_ge in H. lia. }
  destruct Hsel as (idxs & picked & Hsel & Hread & HQ & HZ).
  unfold compress_by_ratio. fold sentences.
  clearbody sentences. destruct sentences as [|s0 rest]; [simpl in Hn; lia|].
  rewrite Heq. fold target. rewrite Hsel, bind_Ok.
  eexists _, idxs, picked. split; [reflexivity|]. split; [exact Hread|].
  cbn [rr_compressed_text]. split; [|split; assumption].
  unfold sentence_separator. now destruct (bool_decide _).
Qed.

(** Property X13.  With ratio 1 every sentence is kept, in the order of
    the text: the compressed text is the sentences joined by the
    separator of the language, and the counts kept and total agree. *)
Theorem X13_ratio_one_keeps_every_sentence (text : pystr) :
  one_score_per_sentence ->
  let sentences := pp_sentences (preprocess_text text) in
  sentences <> [] ->
  exists res,
    compress_by_ratio text 1 = Ok res /\
    rr_compressed_text res
    = join (sentence_separator (pp_language (preprocess_text text))) sentences /\
    rr_sentences_kept res = Z.of_nat (length sentences) /\
    rr_sentences_total res = Z.of_nat (length sentences).
Proof.
  intros Hscores sentences Hne.
  destruct (compress_by_ratio_selects text 1 Hscores Hne)
    as (res & idxs & picked & Hres & Hk & Ht & Hlen & Hsorted & Hread & Htext);
    [reflexivity|apply Qle_refl|].
  fold sentences in Hk, Ht, Hlen, Hread.
  assert (Hn : (1 <= length sentences)%nat).
  { destruct sentences; [congruence|simpl; lia]. }
  assert (Hall : Z.max 1 (Qfloor (inject_Z (Z.of_nat (length sentences)) * 1))
                 = Z.of_nat (length sentences)).
  { rewrite (Qfloor_comp _ _ (Qmult_1_r _)), Qfloor_Z. lia. }
  rewrite Hall in Hk, Hlen.
  assert (Hidx_len : length idxs = length sentences).
  { rewrite (Forall2_length _ _ _ Hread). lia. }
  assert (Hidxs : idxs = seq 0 (length sentences)).
  { rewrite <- Hidx_len. apply ascending_full_range; [assumption|].
    rewrite Hidx_len. apply Forall_forall. intros i Hi.
    apply list_elem_of_lookup in Hi as [k Hk'].
    destruct (Forall2_lookup_l _ _ _ _ _ Hread Hk') as (s & _ & Hs).
    apply lookup_lt_Some in Hs. lia. }
  rewrite Hidxs in Hread. apply read_full_range in Hread. subst picked.
  exists res. repeat split; assumption.
Qed.

End SummarizerRanking.

(** ** Searching and replacing in strings *)

Lemma startswith_app_l (p rest : pystr) : startswith p (p ++ rest) = true.
Proof.
  induction p as [|a p IH]; [reflexivity|]. simpl. now rewrite N.eqb_refl.
Qed.

Lemma startswith_true (p s : pystr) :
  startswith p s = true -> s = p ++ drop (length p) s.
Proof.
  revert s. induction p as [|a p IH]; intros s H; [reflexivity|].
  destruct s as [|b s]; [discriminate|]. simpl in H.
  apply andb_true_iff in H as [Hab H]. apply N.eqb_eq in Hab. subst b.
  simpl. f_equal. now apply IH.
Qed.

Lemma startswith_incompatible (p u v : pystr) :
  compatible p u = false -> startswith p (u ++ v) = false.
Proof.
  revert u. induction p as [|a p IH]; intros u H; [discriminate|].
  destruct u as [|b u]; [discriminate|]. simpl in *.
  destruct (a =? b)%N; [|reflexivity]. simpl in *. now apply IH.
Qed.

Lemma find_from_offset (sub s : pystr) : forall i, 0 <= i ->
  (find_from sub s i = -1 /\ find_from sub s 0 = -1) \/
  (find_from sub s i = i + find_from sub s 0 /\
   0 <= find_from sub s 0 <= Z.of_nat (length s)).
Proof.
  induction s as [|c s IH]; intros i Hi; cbn [find_from].
  - destruct (startswith sub []); [right|left]; simpl; lia.
  - rewrite length_cons, Nat2Z.inj_succ.
    destruct (startswith sub (c :: s)); [right; lia|].
    change (0 + 1) with 1.
    destruct (IH (i + 1) ltac:(lia)) as [[H1 H0]|[H1 H0]];
      destruct (IH 1 ltac:(lia)) as [[G1 G0]|[G1 G0]]; lia.
Qed.

Lemma contains_nil (sub : pystr) : contains sub [] = startswith sub [].
Proof. unfold contains, find. simpl. now destruct (startswith sub []). Qed.

Lemma contains_cons (sub : pystr) (c : N) (s : pystr) :
  contains sub (c :: s) = startswith sub (c :: s) || contains sub s.
Proof.
  unfold contains, find. cbn [find_from]. change (0 + 1) with 1.
  destruct (startswith sub (c :: s)); [reflexivity|]. cbn [orb].
  destruct (find_from_offset sub s 1 ltac:(lia)) as [[H1 H0]|[H1 H0]].
  - now rewrite H1, H0.
  - rewrite H1.
    destruct (Z.eqb_spec (1 + find_from sub s 0) (-1)); [lia|].
    destruct (Z.eqb_spec (find_from sub s 0) (-1)); [lia|reflexivity].
Qed.

Lemma contains_drop (sub s : pystr) (k : nat) :
  startswith sub (drop k s) = true -> (k <= length s)%nat ->
  contains sub s = true.
Proof.
  revert k. induction s as [|c s IH]; intros k H Hk.
  - rewrite drop_nil in H. now rewrite contains_nil.
  - rewrite contains_cons. destruct k as [|k].
    + rewrite drop_0 in H. now rewrite H.
    + simpl in H, Hk. rewrite (IH k H ltac:(lia)). apply orb_true_r.
Qed.

Lemma contains_suffix_absent (a b s : pystr) :
  contains b s = false -> contains (a ++ b) s = false.
Proof.
  intros Hb. destruct (contains (a ++ b) s) eqn:Hab; [|reflexivity].
  exfalso. revert Hb Hab. induction s as [|c s IH]; intros Hb Hab.
  - rewrite contains_nil in *. destruct a, b; simpl in *; congruence.
  - rewrite contains_cons in Hb, Hab.
    apply orb_false_iff in Hb as [Hb1 Hb2].
    apply orb_true_iff in Hab as [Hab|Hab]; [|now apply IH].
    apply startswith_true in Hab.
    set (rest := drop (length (a ++ b)) (c :: s)) in Hab.
    assert (Hin : contains b (c :: s) = true).
    { apply (contains_drop b (c :: s) (length a)).
      - rewrite Hab, <- app_assoc, drop_app_length. apply startswith_app_l.
      - rewrite Hab, !length_app. lia. }
    rewrite contains_cons, Hb1, Hb2 in Hin. discriminate.
Qed.

Lemma replace_aux_skip (old new : pystr) (s : pystr) : forall k,
  replace_aux old new k s = replace_aux old new 0 (drop k s).
Proof.
  induction s as [|c s IH]; intros k.
  - now rewrite drop_nil.
  - destruct k as [|k]; [now rewrite drop_0|]. simpl. apply IH.
Qed.

Lemma replace_absent (old new s : pystr) :
  contains old s = false -> replace old new s = s.
Proof.
  unfold replace. induction s as [|c s IH]; intros H; [reflexivity|].
  rewrite contains_cons in H. apply orb_false_iff in H as [H1 H2].
  simpl. rewrite H1. f_equal. now apply IH.
Qed.

Lemma split_at_sub_contains (sub s pre post : pystr) :
  split_at_sub sub s = Some (pre, post) ->
  s = pre ++ sub ++ post /\ contains sub s = true.
Proof.
  revert pre. induction s as [|c s IH]; intros pre H; simpl in H.
  - destruct (startswith sub []) eqn:E; [|discriminate].
    injection H as <- <-. split; [now apply startswith_true|].
    now rewrite contains_nil.
  - rewrite contains_cons. destruct (startswith sub (c :: s)) eqn:E.
    + injection H as <- <-. split; [now apply startswith_true|reflexivity].
    + destruct (split_at_sub sub s) as [[a b]|]; [|discriminate].
      injection H as <- <-. destruct (IH a eq_refl) as [-> ->].
      split; [reflexivity|apply orb_true_r].
Qed.

Lemma replace_split (old new s pre post : pystr) :
  old <> [] ->
  split_at_sub old s = Some (pre, post) ->
  replace old new s = pre ++ new ++ replace old new post.
Proof.
  intros Hold. unfold replace. revert pre.
  induction s as [|c s IH]; intros pre H; simpl in H.
  - destruct old; [congruence|discriminate].
  - simpl. destruct (startswith old (c :: s)) eqn:E.
    + injection H as <- <-. simpl. f_equal. rewrite replace_aux_skip.
      destruct old as [|o old]; [congruence|]. simpl.
      now rewrite Nat.sub_0_r.
    + destruct (split_at_sub old s) as [[a b]|]; [|discriminate].
      injection H as <- <-. simpl. f_equal. now apply IH.
Qed.

Lemma clear_of_app_startswith (sub u v : pystr) :
  clear_of sub u = true -> u <> [] -> startswith sub (u ++ v) = false.
Proof.
  destruct u as [|c u]; [congruence|]. simpl. intros H _.
  apply andb_true_iff in H as [H _]. apply negb_true_iff in H.
  now apply (startswith_incompatible sub (c :: u) v).
Qed.

Lemma clear_of_tail (sub : pystr) (c : N) (u : pystr) :
  clear_of sub (c :: u) = true -> clear_of sub u = true.
Proof. simpl. intros H. now apply andb_true_iff in H as [_ H]. Qed.

Lemma find_from_clear (sub u v : pystr) : forall i,
  clear_of sub u = true ->
  find_from sub (u ++ v) i = find_from sub v (i + Z.of_nat (length u)).
Proof.
  induction u as [|c u IH]; intros i H.
  - simpl. f_equal. lia.
  - change ((c :: u) ++ v) with (c :: (u ++ v)).
    cbn [find_from].
    change (c :: (u ++ v)) with ((c :: u) ++ v).
    rewrite (clear_of_app_startswith sub (c :: u) v H) by discriminate.
    rewrite IH by (now apply clear_of_tail in H).
    f_equal. simpl length. lia.
Qed.

Lemma contains_clear (sub u v : pystr) :
  clear_of sub u = true -> contains sub (u ++ v) = contains sub v.
Proof.
  induction u as [|c u IH]; intros H; [reflexivity|].
  change ((c :: u) ++ v) with (c :: (u ++ v)). rewrite contains_cons.
  change (c :: (u ++ v)) with ((c :: u) ++ v).
  rewrite (clear_of_app_startswith sub (c :: u) v H) by discriminate.
  apply IH. now apply clear_of_tail in H.
Qed.

Lemma split_at_sub_clear (sub u v : pystr) :
  clear_of sub u = true ->
  split_at_sub sub (u ++ v)
  = match split_at_sub sub v with
    | Some (a, b) => Some (u ++ a, b)
    | None => None
    end.
Proof.
  induction u as [|c u IH]; intros H.
  - simpl. now destruct (split_at_sub sub v) as [[a b]|].
  - change ((c :: u) ++ v) with (c :: (u ++ v)). cbn [split_at_sub].
    change (c :: (u ++ v)) with ((c :: u) ++ v).
    rewrite (clear_of_app_startswith sub (c :: u) v H) by discriminate.
    rewrite IH by (now apply clear_of_tail in H).
    now destruct (split_at_sub sub v) as [[a b]|].
Qed.

Lemma split_at_sub_here (sub rest : pystr) :
  split_at_sub sub (sub ++ rest) = Some ([], rest).
Proof.
  destruct sub as [|a sub].
  - simpl. destruct rest; reflexivity.
  - change ((a :: sub) ++ rest) with (a :: (sub ++ rest)). cbn [split_at_sub].
    change (a :: (sub ++ rest)) with ((a :: sub) ++ rest).
    rewrite startswith_app_l. now rewrite drop_app_length.
Qed.

Lemma text_safe_clear (sub' u : pystr) :
  text_safe u = true -> clear_of (60%N :: sub') u = true.
Proof.
  induction u as [|c u IH]; [reflexivity|].
  unfold text_safe. cbn [forallb clear_of compatible]. intros H.
  apply andb_true_iff in H as [Hc H]. rewrite (IH H), andb_true_r.
  apply negb_true_iff in Hc. rewrite N.eqb_sym in Hc. now rewrite Hc.
Qed.

Lemma attr_safe_text_safe (s : pystr) : attr_safe s = true -> text_safe s = true.
Proof.
  induction s as [|c s IH]; [reflexivity|].
  unfold attr_safe, text_safe. cbn [forallb]. intros H.
  apply andb_true_iff in H as [Hc H]. unfold text_safe in IH.
  rewrite (IH H), andb_true_r.
  apply negb_true_iff in Hc. apply negb_true_iff.
  repeat (apply orb_false_iff in Hc as [Hc ?]). assumption.
Qed.

(** ** Reading entries back *)

Ltac eval_lits :=
  unfold dq;
  repeat match goal with
         | |- context [lit ?s] =>
             let v := eval vm_compute in (lit s) in change (lit s) with v
         end;
  cbn [app].

Lemma span_until (p : N -> bool) (u : pystr) (c : N) (v : pystr) :
  forallb p u = true -> p c = false -> span p (u ++ c :: v) = (u, c :: v).
Proof.
  intros Hu Hc. induction u as [|a u IH]; simpl.
  - now rewrite Hc.
  - simpl in Hu. apply andb_true_iff in Hu as [Ha Hu].
    now rewrite Ha, (IH Hu).
Qed.

Lemma attr_safe_not_char (x : N) (s : pystr) :
  x = 34%N \/ x = 62%N -> attr_safe s = true -> forallb (not_char x) s = true.
Proof.
  intros Hx. unfold attr_safe, not_char.
  induction s as [|c s IH]; [reflexivity|]. cbn [forallb]. intros H.
  apply andb_true_iff in H as [Hc H]. rewrite (IH H), andb_true_r.
  apply negb_true_iff in Hc. apply negb_true_iff.
  apply orb_false_iff in Hc as [Hc H62].
  apply orb_false_iff in Hc as [Hc H61].
  apply orb_false_iff in Hc as [H34 H60].
  destruct Hx as [-> | ->]; assumption.
Qed.

Lemma attr_safe_drop (k : nat) (s : pystr) :
  attr_safe s = true -> attr_safe (drop k s) = true.
Proof.
  revert k. induction s as [|c s IH]; intros [|k] H; try assumption.
  simpl. apply IH. unfold attr_safe in H. cbn [forallb] in H.
  now apply andb_true_iff in H as [_ H].
Qed.

(** No suffix of a safe attribute value, followed by its closing quote,
    starts the attribute [role]. *)
Lemma role_attr_no_start (R rest : pystr) :
  attr_safe R = true ->
  startswith (lit "role=" ++ dq) (R ++ dq ++ rest) = false.
Proof.
  intros H. eval_lits. unfold attr_safe in H.
  destruct R as [|c1 [|c2 [|c3 [|c4 [|c5 [|c6 R]]]]]];
    cbn [app startswith forallb] in *;
    repeat match goal with
           | |- context [(?a =? ?b)%N] =>
               destruct (N.eqb_spec a b);
               cbn [andb]; try reflexivity; try discriminate; subst
           end;
    cbn in H; discriminate.
Qed.

Lemma entry_from_role_none (t : pystr) :
  startswith (lit "role=" ++ dq) t = false -> entry_from_role t = None.
Proof. intros H. unfold entry_from_role. now rewrite H. Qed.

Lemma entry_attrs_none (W x : pystr) :
  forallb (not_char 62) W = true ->
  (forall k, (k <= length W)%nat ->
     startswith (lit "role=" ++ dq) (drop k (W ++ 62%N :: x)) = false) ->
  entry_attrs (W ++ 62%N :: x) = None.
Proof.
  induction W as [|c W IH]; intros Hw H.
  - simpl app. cbn [entry_attrs]. rewrite N.eqb_refl.
    apply entry_from_role_none. apply (H 0%nat). simpl. lia.
  - change ((c :: W) ++ 62%N :: x) with (c :: (W ++ 62%N :: x)).
    cbn [entry_attrs]. cbn [forallb] in Hw.
    apply andb_true_iff in Hw as [Hc Hw].
    unfold not_char in Hc. apply negb_true_iff in Hc. rewrite Hc.
    rewrite IH; [|assumption|].
    + apply entry_from_role_none. apply (H 0%nat). simpl. lia.
    + intros k Hk. apply (H (S k)). simpl. lia.
Qed.

(** The positions of [u ++ w] at which the attribute [role] does not
    start: those inside [u] and those of [w]. *)
Lemma no_role_start_app (u w : pystr) (x : pystr) :
  (forall k, (k < length u)%nat ->
     startswith (lit "role=" ++ dq) (drop k u ++ w ++ 62%N :: x) = false) ->
  (forall k, (k <= length w)%nat ->
     startswith (lit "role=" ++ dq) (drop k (w ++ 62%N :: x)) = false) ->
  forall k, (k <= length (u ++ w))%nat ->
    startswith (lit "role=" ++ dq) (drop k ((u ++ w) ++ 62%N :: x)) = false.
Proof.
  intros Hu Hw k Hk. rewrite <- app_assoc.
  destruct (lt_dec k (length u)) as [Hlt|Hge].
  - rewrite drop_app_le by lia. now apply Hu.
  - rewrite drop_app_ge by lia. apply Hw. rewrite length_app in Hk. lia.
Qed.

Lemma no_role_start_clear (u rest : pystr) :
  clear_of (lit "role=" ++ dq) u = true ->
  forall k, (k < length u)%nat ->
    startswith (lit "role=" ++ dq) (drop k u ++ rest) = false.
Proof.
  induction u as [|c u IH]; intros H k Hk; [simpl in Hk; lia|].
  destruct k as [|k].
  - rewrite drop_0. apply clear_of_app_startswith; [assumption|discriminate].
  - simpl drop. apply IH; [now apply clear_of_tail in H|simpl in Hk; lia].
Qed.

(** The attributes read by the entry pattern once it has passed
    [<entry] and a space: the role up to its closing quote, further
    attributes [A], and the message up to the closing tag. *)
Lemma entry_attrs_rendered (R A M rest : pystr) :
  attr_safe R = true ->
  forallb (not_char 62) A = true ->
  (forall x k, (k <= length A)%nat ->
     startswith (lit "role=" ++ dq) (drop k (A ++ 62%N :: x)) = false) ->
  text_safe M = true ->
  entry_attrs (lit " role=" ++ dq ++ R ++ dq ++ A ++ lit ">" ++ M ++
               lit "</entry>" ++ rest)
  = Some (R, M, rest).
Proof.
  intros HR HA HAr HM.
  set (x := M ++ lit "</entry>" ++ rest).
  assert (Hfrom : entry_from_role (lit "role=" ++ dq ++ R ++ dq ++ A ++ 62%N :: x)
                  = Some (R, M, rest)).
  { unfold entry_from_role.
    rewrite (app_assoc (lit "role=")), startswith_app_l.
    change (drop 6 ((lit "role=" ++ dq) ++ R ++ dq ++ A ++ 62%N :: x))
      with (R ++ 34%N :: A ++ 62%N :: x).
    rewrite (span_until (not_char 34) R 34 (A ++ 62%N :: x)
               (attr_safe_not_char 34 R (or_introl eq_refl) HR) eq_refl).
    rewrite (span_until (not_char 62) A 62 x HA eq_refl).
    unfold x. rewrite split_at_sub_clear by (now apply text_safe_clear).
    now rewrite split_at_sub_here, app_nil_r. }
  assert (Hnone : entry_attrs ((lit "ole=" ++ dq ++ R ++ dq ++ A) ++ 62%N :: x)
                  = None).
  { apply entry_attrs_none.
    - rewrite !forallb_app, HA, (attr_safe_not_char 62 R) by (auto).
      reflexivity.
    - rewrite (app_assoc (lit "ole=")).
      apply no_role_start_app.
      { intros k Hk. now apply no_role_start_clear. }
      rewrite (app_assoc R).
      apply no_role_start_app; [|apply HAr].
      intros k Hk. rewrite length_app in Hk. simpl in Hk.
      destruct (lt_dec k (length R)) as [Hlt|Hge].
      + rewrite drop_app_le by lia. rewrite <- app_assoc.
        apply role_attr_no_start. now apply attr_safe_drop.
      + rewrite drop_app_ge by lia.
        replace (k - length R)%nat with 0%nat by lia. reflexivity. }
  assert (Heq : lit " role=" ++ dq ++ R ++ dq ++ A ++ lit ">" ++ x
                = 32%N :: 114%N ::
                  ((lit "ole=" ++ dq ++ R ++ dq ++ A) ++ 62%N :: x))
    by (rewrite <- !app_assoc; reflexivity).
  fold x. rewrite Heq. cbn [entry_attrs].
  change (32 =? 62)%N with false. change (114 =? 62)%N with false. cbv iota.
  rewrite Hnone.
  replace (114%N :: (lit "ole=" ++ dq ++ R ++ dq ++ A) ++ 62%N :: x)
    with (lit "role=" ++ dq ++ R ++ dq ++ A ++ 62%N :: x)
    by (rewrite <- !app_assoc; reflexivity).
  now rewrite Hfrom.
Qed.

Lemma findall_entries_aux_skip (s : pystr) : forall k,
  findall_entries_aux k s = findall_entries_aux 0 (drop k s).
Proof.
  induction s as [|c s IH]; intros k.
  - now rewrite drop_nil.
  - destruct k as [|k]; [now rewrite drop_0|]. simpl. apply IH.
Qed.

Lemma findall_entries_clear (u v : pystr) :
  clear_of (lit "<entry") u = true ->
  findall_entries (u ++ v) = findall_entries v.
Proof.
  unfold findall_entries. induction u as [|c u IH]; intros H; [reflexivity|].
  change ((c :: u) ++ v) with (c :: (u ++ v)). cbn [findall_entries_aux].
  change (c :: (u ++ v)) with ((c :: u) ++ v).
  unfold match_entry.
  rewrite (clear_of_app_startswith (lit "<entry") (c :: u) v H) by discriminate.
  apply IH. now apply clear_of_tail in H.
Qed.

Lemma findall_entries_match (x rest r m : pystr) :
  x <> [] ->
  match_entry (x ++ rest) = Some (r, m, rest) ->
  findall_entries (x ++ rest) = (r, m) :: findall_entries rest.
Proof.
  intros Hx Hm. unfold findall_entries.
  destruct x as [|c x]; [congruence|].
  change ((c :: x) ++ rest) with (c :: (x ++ rest)) in *.
  cbn [findall_entries_aux]. rewrite Hm. f_equal.
  rewrite findall_entries_aux_skip. f_equal.
  rewrite length_cons, length_app.
  replace (S (length x + length rest) - length rest - 1)%nat
    with (length x) by lia.
  apply drop_app_length.
Qed.

(** One entry, with further attributes [A] after the role, is read as its
    role and its message, and the search goes on behind it. *)
Lemma findall_entries_entry (R A M rest : pystr) :
  attr_safe R = true ->
  forallb (not_char 62) A = true ->
  (forall x k, (k <= length A)%nat ->
     startswith (lit "role=" ++ dq) (drop k (A ++ 62%N :: x)) = false) ->
  text_safe M = true ->
  findall_entries (lit "<entry role=" ++ dq ++ R ++ dq ++ A ++ lit ">" ++ M ++
                   lit "</entry>" ++ rest)
  = (R, M) :: findall_entries rest.
Proof.
  intros HR HA HAr HM.
  replace (lit "<entry role=" ++ dq ++ R ++ dq ++ A ++ lit ">" ++ M ++
           lit "</entry>" ++ rest)
    with ((lit "<entry role=" ++ dq ++ R ++ dq ++ A ++ lit ">" ++ M ++
           lit "</entry>") ++ rest)
    by (now rewrite <- !app_assoc).
  apply findall_entries_match; [discriminate|].
  rewrite <- !app_assoc. unfold match_entry.
  change (lit "<entry role=" ++ dq ++ R ++ dq ++ A ++ lit ">" ++ M ++
          lit "</entry>" ++ rest)
    with (lit "<entry" ++ (lit " role=" ++ dq ++ R ++ dq ++ A ++ lit ">" ++ M ++
          lit "</entry>" ++ rest)).
  rewrite startswith_app_l.
  change (drop 6 (lit "<entry" ++ ?t)) with t.
  change (drop 6 (lit "<entry" ++
            (lit " role=" ++ dq ++ R ++ dq ++ A ++ lit ">" ++ M ++
             lit "</entry>" ++ rest)))
    with (lit " role=" ++ dq ++ R ++ dq ++ A ++ lit ">" ++ M ++
          lit "</entry>" ++ rest).
  now apply entry_attrs_rendered.
Qed.

Lemma no_further_attributes (x : pystr) (k : nat) :
  (k <= length (@nil N))%nat ->
  startswith (lit "role=" ++ dq) (drop k ([] ++ 62%N :: x)) = false.
Proof. intros Hk. simpl in Hk. now replace k with 0%nat by lia. Qed.

Lemma timestamp_attribute (T x : pystr) (k : nat) :
  attr_safe T = true ->
  (k <= length (lit " timestamp=" ++ dq ++ T ++ dq))%nat ->
  startswith (lit "role=" ++ dq)
    (drop k ((lit " timestamp=" ++ dq ++ T ++ dq) ++ 62%N :: x)) = false.
Proof.
  intros HT. revert k.
  rewrite (app_assoc (lit " timestamp=")).
  apply no_role_start_app.
  { intros k Hk. now apply no_role_start_clear. }
  apply no_role_start_app.
  - intros k Hk. apply role_attr_no_start. now apply attr_safe_drop.
  - intros k Hk. simpl in Hk.
    destruct k as [|[|k]]; [reflexivity|reflexivity|lia].
Qed.

Lemma compatible_app (p u v : pystr) :
  compatible p u = false -> compatible p (u ++ v) = false.
Proof.
  revert u. induction p as [|a p IH]; intros u H; [discriminate|].
  destruct u as [|b u]; [discriminate|]. simpl in *.
  destruct (a =? b)%N; [|reflexivity]. simpl in *. now apply IH.
Qed.

Lemma clear_of_app (sub u v : pystr) :
  clear_of sub u = true -> clear_of sub v = true ->
  clear_of sub (u ++ v) = true.
Proof.
  intros Hu Hv. induction u as [|c u IH]; [assumption|].
  change ((c :: u) ++ v) with (c :: (u ++ v)). cbn [clear_of] in *.
  apply andb_true_iff in Hu as [Hc Hu]. apply negb_true_iff in Hc.
  rewrite (IH Hu), andb_true_r. apply negb_true_iff.
  now apply (compatible_app sub (c :: u) v).
Qed.

Ltac solve_clear :=
  repeat (apply clear_of_app);
  first [ reflexivity
        | apply text_safe_clear; assumption
        | apply text_safe_clear, attr_safe_text_safe; assumption ].

(** ** The rebuilt section read again *)

Lemma findall_rendered_lines (entries : list (pystr * pystr)) (tail : pystr) :
  Forall (fun e => attr_safe (fst e) = true /\ text_safe (snd e) = true)
    entries ->
  clear_of (lit "<entry") tail = true ->
  findall_entries
    (join [10%N] (map (fun e => render_entry (fst e) (snd e)) entries) ++ tail)
  = entries.
Proof.
  intros Hsafe Htail.
  assert (Hnil : findall_entries tail = []).
  { rewrite <- (app_nil_r tail). now rewrite findall_entries_clear. }
  assert (Hone : forall r m rest, attr_safe r = true -> text_safe m = true ->
            findall_entries (render_entry r m ++ rest)
            = (r, m) :: findall_entries rest).
  { intros r m rest Hr Hm. unfold render_entry.
    change (lit "        <entry role=")
      with (lit "        " ++ lit "<entry role=").
    rewrite <- !app_assoc.
    rewrite findall_entries_clear by reflexivity.
    apply (findall_entries_entry r [] m rest Hr eq_refl); [|assumption].
    intros x k Hk. now apply no_further_attributes. }
  induction Hsafe as [|[r m] entries [Hr Hm] Hrest IH]; [exact Hnil|].
  cbn [fst snd] in *. destruct entries as [|e2 entries].
  - cbn [map join]. now rewrite Hone, Hnil.
  - change (join [10%N] (map (fun e => render_entry (fst e) (snd e))
                           ((r, m) :: e2 :: entries)))
      with (render_entry r m ++ [10%N] ++
            join [10%N] (map (fun e => render_entry (fst e) (snd e))
                           (e2 :: entries))).
    rewrite <- !app_assoc, Hone by assumption. f_equal.
    rewrite findall_entries_clear by reflexivity. exact IH.
Qed.

(** Property X6.  The section that the history compressor rebuilds is
    read back by its own entry pattern as the same entries, role by role
    and message by message, when no role holds a double quote, [<], [=]
    or [>] and no message holds [<]. *)
Theorem X6_rebuilt_section_reads_back (entries : list (pystr * pystr)) :
  Forall (fun e => attr_safe (fst e) = true /\ text_safe (snd e) = true)
    entries ->
  findall_entries
    (render_history_section
       (map (fun e => render_entry (fst e) (snd e)) entries))
  = entries.
Proof.
  intros Hsafe. unfold render_history_section.
  rewrite (app_assoc (lit "<HISTORY>")).
  rewrite findall_entries_clear by reflexivity.
  now apply findall_rendered_lines.
Qed.

(** ** A section left open *)

Lemma startswith_short (p s : pystr) :
  (length s < length p)%nat -> startswith p s = false.
Proof.
  revert s. induction p as [|a p IH]; intros s H; [simpl in H; lia|].
  destruct s as [|b s]; [reflexivity|]. simpl in *.
  rewrite IH by lia. apply andb_false_r.
Qed.

Lemma entry_attrs_short (t : pystr) :
  (length t < 6)%nat -> entry_attrs t = None.
Proof.
  induction t as [|c t IH]; intros H.
  - reflexivity.
  - cbn [entry_attrs]. rewrite IH by (simpl in H; lia).
    rewrite entry_from_role_none by (now apply startswith_short).
    now destruct (c =? 62)%N.
Qed.

Lemma match_entry_short (s : pystr) :
  (length s < 12)%nat -> match_entry s = None.
Proof.
  intros H. unfold match_entry.
  destruct (startswith (lit "<entry") s) eqn:E; [|reflexivity].
  apply entry_attrs_short. rewrite length_drop. lia.
Qed.

Lemma findall_entries_short (s : pystr) :
  (length s < 12)%nat -> findall_entries s = [].
Proof.
  unfold findall_entries. induction s as [|c s IH]; intros H; [reflexivity|].
  cbn [findall_entries_aux]. rewrite match_entry_short by assumption.
  apply IH. simpl in H. lia.
Qed.

Lemma py_slice_length {A} (s : list A) (a b : Z) :
  0 <= b -> Z.of_nat (length (py_slice s a b)) <= b.
Proof.
  intros Hb. unfold py_slice.
  set (n := Z.of_nat (length s)).
  assert (Hb' : clip_index n b <= b).
  { unfold clip_index. destruct (Z.ltb_spec b 0); lia. }
  assert (Ha' : 0 <= clip_index n a).
  { unfold clip_index, n. destruct (Z.ltb_spec a 0); lia. }
  rewrite length_take.
  pose proof (Nat.le_min_l (Z.to_nat (clip_index n b - clip_index n a))
                (length (drop (Z.to_nat (clip_index n a)) s))).
  lia.
Qed.

Lemma contains_find (sub s : pystr) :
  contains sub s = false <-> find sub s = -1.
Proof.
  unfold contains. rewrite negb_false_iff. apply Z.eqb_eq.
Qed.

Section OpenSection.

Context `{rt : Runtime}.

(** Property X5.  A document whose HISTORY section is never closed comes
    back unchanged from the XML history compressor, for every client.
    The end of the section is computed as the position found plus ten,
    so the test for a missing section does not see the missing closing
    tag: with an opening tag present the message reports that the
    section has no entries. *)
Theorem X5_open_section_returned_unchanged (self : ContextCompressor)
    (xml_content : pystr) (P : Z) (c : Q) (max_model_tokens : Z)
    (temperature : Q) :
  contains (lit "</HISTORY>") xml_content = false ->
  exists r,
    _compress_xml_history self xml_content P c max_model_tokens temperature
    = Ok r /\
    hr_compressed_content r = xml_content /\
    hr_success r = None /\
    (contains (lit "<HISTORY>") xml_content = true ->
     hr_message r = lit "No entries found in HISTORY section").
Proof.
  intros Hclose. apply contains_find in Hclose.
  unfold _compress_xml_history. rewrite Hclose.
  change (-1 + 10 =? -1) with false. rewrite orb_false_r.
  destruct (find (lit "<HISTORY>") xml_content =? -1) eqn:Hopen.
  - eexists. split; [reflexivity|].
    cbn [hr_compressed_content hr_success hr_message]. repeat split.
    intros Hin. unfold contains in Hin. rewrite Hopen in Hin. discriminate.
  - rewrite findall_entries_short.
    + eexists. split; [reflexivity|].
      cbn [hr_compressed_content hr_success hr_message]. repeat split.
    + pose proof (py_slice_length xml_content
                    (find (lit "<HISTORY>") xml_content) (-1 + 10)
                    ltac:(lia)). lia.
Qed.

End OpenSection.

(** ** The history writer *)

Section HistoryWriter.

Context `{env : WriterEnv}.

Lemma add_history_before_closing_tag
    (xml_content pre post content role : pystr) :
  split_at_sub (lit "</HISTORY>") xml_content = Some (pre, post) ->
  contains (lit "</HISTORY>") post = false ->
  add_history_content_raw xml_content content role
  = pre ++
    (lit "    <entry role=" ++ dq ++ role ++ dq ++ lit " timestamp=" ++ dq ++
     timestamp ++ dq ++ lit ">" ++ content ++ lit "</entry>") ++
    [10%N] ++ lit "    </HISTORY>" ++ post.
Proof.
  intros Hsplit Hpost.
  destruct (split_at_sub_contains _ _ _ _ Hsplit) as [Hdoc Hin].
  assert (Hold : lit "</HISTORY>" <> []) by discriminate.
  unfold add_history_content_raw. rewrite Hin.
  rewrite (replace_split _ _ _ pre post Hold Hsplit).
  rewrite (replace_absent _ _ post Hpost).
  now rewrite <- !app_assoc.
Qed.

Lemma add_history_to_empty_element
    (xml_content pre post content role : pystr) :
  contains (lit "</HISTORY>") xml_content = false ->
  split_at_sub (lit "<HISTORY />") xml_content = Some (pre, post) ->
  contains (lit "<HISTORY />") post = false ->
  let section :=
    lit "<HISTORY>" ++ [10%N] ++
    (lit "    <entry role=" ++ dq ++ role ++ dq ++ lit " timestamp=" ++ dq ++
     timestamp ++ dq ++ lit ">" ++ content ++ lit "</entry>") ++
    [10%N] ++ lit "    </HISTORY>" in
  contains (lit "<HISTORY></HISTORY>") (pre ++ section ++ post) = false ->
  add_history_content_raw xml_content content role = pre ++ section ++ post.
Proof.
  intros Hclose Hsplit Hpost section Hnone.
  assert (Hold : lit "<HISTORY />" <> []) by discriminate.
  unfold add_history_content_raw. rewrite Hclose.
  fold section.
  rewrite (replace_split _ section _ pre post Hold Hsplit).
  rewrite (replace_absent _ section post Hpost).
  now apply replace_absent.
Qed.

(** Property X14.  A document with neither a closing HISTORY tag nor an
    empty HISTORY element is returned as it is: the entry is dropped
    and nothing reports it. *)
Theorem X14_history_entry_dropped_without_section
    (xml_content content role : pystr) :
  contains (lit "</HISTORY>") xml_content = false ->
  contains (lit "<HISTORY />") xml_content = false ->
  add_history_content_raw xml_content content role = xml_content.
Proof.
  intros Hclose Hempty. unfold add_history_content_raw. rewrite Hclose.
  rewrite (replace_absent (lit "<HISTORY />")) by assumption.
  apply replace_absent.
  apply (contains_suffix_absent (lit "<HISTORY>") (lit "</HISTORY>")).
  assumption.
Qed.

(** Property X15.  In a document with one closing HISTORY tag the new
    entry, with its role and the clock reading as attributes, goes right
    in front of that tag; the text before and the text after the tag are
    kept as they are. *)
Theorem X15_history_entry_goes_before_closing_tag
    (xml_content pre post content role : pystr) :
  split_at_sub (lit "</HISTORY>") xml_content = Some (pre, post) ->
  contains (lit "</HISTORY>") post = false ->
  xml_content = pre ++ lit "</HISTORY>" ++ post /\
  add_history_content_raw xml_content content role
  = pre ++
    (lit "    <entry role=" ++ dq ++ role ++ dq ++ lit " timestamp=" ++ dq ++
     timestamp ++ dq ++ lit ">" ++ content ++ lit "</entry>") ++
    [10%N] ++ lit "    </HISTORY>" ++ post.
Proof.
  intros Hsplit Hpost.
  split; [exact (proj1 (split_at_sub_contains _ _ _ _ Hsplit))|].
  now apply add_history_before_closing_tag.
Qed.

End HistoryWriter.

(** ** Entries appended to a new context file *)

Lemma entry_safe_parts (e : pystr * pystr * pystr) :
  entry_safe e = true ->
  attr_safe (fst (fst e)) = true /\ attr_safe (snd (fst e)) = true /\
  text_safe (snd e) = true.
Proof.
  unfold entry_safe. intros H.
  apply andb_true_iff in H as [H Hc]. apply andb_true_iff in H as [Ht Hr].
  auto.
Qed.

Lemma entry_element_clear (sub' : pystr) (e : pystr * pystr * pystr) :
  entry_safe e = true ->
  clear_of (60%N :: sub') (lit "<entry role=" ++ dq) = true ->
  clear_of (60%N :: sub') (lit "</entry>") = true ->
  clear_of (60%N :: sub') (entry_element e) = true.
Proof.
  intros He Hopen Hclose.
  destruct (entry_safe_parts e He) as (Ht & Hr & Hc).
  unfold entry_element.
  rewrite (app_assoc (lit "<entry role=")).
  apply clear_of_app; [exact Hopen|].
  apply clear_of_app; [now apply text_safe_clear, attr_safe_text_safe|].
  apply clear_of_app; [now apply text_safe_clear|].
  apply clear_of_app; [now apply text_safe_clear|].
  apply clear_of_app; [now apply text_safe_clear|].
  apply clear_of_app; [now apply text_safe_clear, attr_safe_text_safe|].
  apply clear_of_app; [now apply text_safe_clear|].
  apply clear_of_app; [now apply text_safe_clear|].
  apply clear_of_app; [now apply text_safe_clear|exact Hclose].
Qed.

Lemma later_lines_clear (sub' : pystr) (es : list (pystr * pystr * pystr)) :
  Forall (fun e => entry_safe e = true) es ->
  clear_of (60%N :: sub') (lit "<entry role=" ++ dq) = true ->
  clear_of (60%N :: sub') (lit "</entry>") = true ->
  clear_of (60%N :: sub')
    (flat_map (fun e' => lit "        " ++ entry_element e' ++ [10%N]) es)
  = true.
Proof.
  intros Hsafe H1 H2. induction Hsafe as [|e es He Hes IH]; [reflexivity|].
  cbn [flat_map]. rewrite <- !app_assoc.
  apply clear_of_app; [now apply text_safe_clear|].
  apply clear_of_app; [now apply entry_element_clear|].
  apply clear_of_app; [now apply text_safe_clear|exact IH].
Qed.

Lemma written_lines_clear (sub' : pystr) (es : list (pystr * pystr * pystr)) :
  Forall (fun e => entry_safe e = true) es ->
  clear_of (60%N :: sub') (lit "<entry role=" ++ dq) = true ->
  clear_of (60%N :: sub') (lit "</entry>") = true ->
  clear_of (60%N :: sub') (written_lines es) = true.
Proof.
  intros Hsafe H1 H2. destruct Hsafe as [|e es He Hes]; [reflexivity|].
  unfold written_lines.
  apply clear_of_app; [now apply text_safe_clear|].
  apply clear_of_app; [now apply entry_element_clear|].
  apply clear_of_app; [now apply text_safe_clear|].
  now apply later_lines_clear.
Qed.

Lemma written_lines_snoc (e0 : pystr * pystr * pystr)
    (es : list (pystr * pystr * pystr)) (e : pystr * pystr * pystr) :
  written_lines ((e0 :: es) ++ [e])
  = written_lines (e0 :: es) ++ lit "        " ++ entry_element e ++ [10%N].
Proof.
  change ((e0 :: es) ++ [e]) with (e0 :: (es ++ [e])).
  unfold written_lines. rewrite flat_map_app. cbn [flat_map].
  rewrite app_nil_r. now rewrite <- !app_assoc.
Qed.

Section Appending.

Context (env : WriterEnv).

Lemma written_document_one_closing_tag (es : list (pystr * pystr * pystr)) :
  Forall (fun e => entry_safe e = true) es ->
  split_at_sub (lit "</HISTORY>") (written_document es)
  = Some (document_head ++ lit "<HISTORY>" ++ [10%N] ++ written_lines es ++
          lit "    ", lit "</context>").
Proof.
  intros Hsafe. unfold written_document.
  change (lit "    </HISTORY>") with (lit "    " ++ lit "</HISTORY>").
  replace (document_head ++ lit "<HISTORY>" ++ [10%N] ++ written_lines es ++
           (lit "    " ++ lit "</HISTORY>") ++ lit "</context>")
    with ((document_head ++ lit "<HISTORY>" ++ [10%N] ++ written_lines es ++
           lit "    ") ++ lit "</HISTORY>" ++ lit "</context>")
    by (now rewrite <- !app_assoc).
  rewrite split_at_sub_clear, split_at_sub_here, app_nil_r; [reflexivity|].
  apply (clear_of_app _ document_head); [reflexivity|].
  apply (clear_of_app _ (lit "<HISTORY>")); [reflexivity|].
  apply (clear_of_app _ [10%N]); [reflexivity|].
  apply clear_of_app; [|reflexivity].
  apply (written_lines_clear (lit "/HISTORY>")); [assumption| |]; reflexivity.
Qed.

Lemma written_document_no_empty_element (es : list (pystr * pystr * pystr)) :
  Forall (fun e => entry_safe e = true) es ->
  contains (lit "<HISTORY></HISTORY>") (written_document es) = false.
Proof.
  intros Hsafe. rewrite <- (app_nil_r (written_document es)).
  rewrite contains_clear; [reflexivity|].
  unfold written_document.
  apply (clear_of_app _ document_head); [reflexivity|].
  rewrite (app_assoc (lit "<HISTORY>")).
  apply (clear_of_app _ (lit "<HISTORY>" ++ [10%N])); [reflexivity|].
  apply clear_of_app; [|reflexivity].
  apply (written_lines_clear (lit "HISTORY></HISTORY>")); [assumption| |];
    reflexivity.
Qed.

Lemma append_to_new_file (e : pystr * pystr * pystr) :
  entry_safe e = true ->
  append_history env initial_context_xml e = written_document [e].
Proof.
  intros He.
  assert (Hclose : contains (lit "</HISTORY>") initial_context_xml = false)
    by (vm_compute; reflexivity).
  assert (Hsplit : split_at_sub (lit "<HISTORY />") initial_context_xml
                   = Some (document_head, lit "</context>"))
    by (vm_compute; reflexivity).
  assert (Hrest : contains (lit "<HISTORY />") (lit "</context>") = false)
    by (vm_compute; reflexivity).
  assert (Hdoc : document_head ++
                 (lit "<HISTORY>" ++ [10%N] ++
                  (lit "    <entry role=" ++ dq ++ snd (fst e) ++ dq ++
                   lit " timestamp=" ++ dq ++ fst (fst e) ++ dq ++ lit ">" ++
                   snd e ++ lit "</entry>") ++
                  [10%N] ++ lit "    </HISTORY>") ++ lit "</context>"
                 = written_document [e]).
  { unfold written_document, written_lines, entry_element.
    cbn [flat_map]. rewrite app_nil_r.
    change (lit "    <entry role=") with (lit "    " ++ lit "<entry role=").
    now rewrite <- !app_assoc. }
  unfold append_history. rewrite <- Hdoc.
  apply (@add_history_to_empty_element (at_time env (fst (fst e)))
           initial_context_xml document_head (lit "</context>") (snd e)
           (snd (fst e)) Hclose Hsplit Hrest).
  cbn [timestamp at_time]. rewrite Hdoc.
  apply written_document_no_empty_element. now constructor.
Qed.

Lemma append_to_written_file (e0 : pystr * pystr * pystr)
    (es : list (pystr * pystr * pystr)) (e : pystr * pystr * pystr) :
  Forall (fun e => entry_safe e = true) (e0 :: es) ->
  append_history env (written_document (e0 :: es)) e
  = written_document ((e0 :: es) ++ [e]).
Proof.
  intros Hsafe.
  pose proof (written_document_one_closing_tag _ Hsafe) as Hsplit.
  assert (Hrest : contains (lit "</HISTORY>") (lit "</context>") = false)
    by (vm_compute; reflexivity).
  unfold append_history.
  rewrite (@add_history_before_closing_tag (at_time env (fst (fst e)))
             _ _ _ (snd e) (snd (fst e)) Hsplit Hrest).
  unfold written_document. rewrite written_lines_snoc.
  unfold entry_element. cbn [timestamp at_time].
  change (lit "    <entry role=") with (lit "    " ++ lit "<entry role=").
  change (lit "        ") with (lit "    " ++ lit "    ").
  now rewrite <- !app_assoc.
Qed.

Lemma fold_left_step {A B} (f : A -> B -> A) (x : B) (l : list B) (a : A) :
  fold_left f (x :: l) a = fold_left f l (f a x).
Proof. reflexivity. Qed.

Lemma appends_to_written_file (es done : list (pystr * pystr * pystr))
    (e0 : pystr * pystr * pystr) :
  Forall (fun e => entry_safe e = true) (e0 :: done) ->
  Forall (fun e => entry_safe e = true) es ->
  fold_left (append_history env) es (written_document (e0 :: done))
  = written_document ((e0 :: done) ++ es).
Proof.
  revert done. induction es as [|e es IH]; intros done Hdone Hes.
  - now rewrite app_nil_r.
  - apply Forall_cons in Hes as [He Hes]. rewrite fold_left_step.
    rewrite append_to_written_file by assumption.
    change ((e0 :: done) ++ [e]) with (e0 :: (done ++ [e])).
    rewrite IH; [|constructor|assumption].
    + f_equal. cbn [app]. f_equal. now rewrite <- app_assoc.
    + now apply Forall_cons in Hdone as [H0 _].
    + apply Forall_app. split; [now apply Forall_cons in Hdone as [_ H]|].
      now constructor.
Qed.

Lemma appends_to_new_file (e0 : pystr * pystr * pystr)
    (es : list (pystr * pystr * pystr)) :
  Forall (fun e => entry_safe e = true) (e0 :: es) ->
  fold_left (append_history env) (e0 :: es) initial_context_xml
  = written_document (e0 :: es).
Proof.
  intros Hsafe. pose proof Hsafe as Hsafe'.
  apply Forall_cons in Hsafe' as [H0 Hes].
  rewrite fold_left_step, append_to_new_file by assumption.
  rewrite appends_to_written_file; [|now constructor|assumption].
  f_equal.
Qed.

End Appending.

Lemma find_from_split (sub s : pystr) : forall pre post i,
  split_at_sub sub s = Some (pre, post) ->
  find_from sub s i = i + Z.of_nat (length pre).
Proof.
  induction s as [|c s IH]; intros pre post i H; cbn [split_at_sub] in H;
    cbn [find_from].
  - destruct (startswith sub []); [|discriminate].
    injection H as <- <-. simpl. lia.
  - destruct (startswith sub (c :: s)).
    + injection H as <- <-. simpl. lia.
    + destruct (split_at_sub sub s) as [[a b]|] eqn:E; [|discriminate].
      injection H as <- <-. rewrite (IH a b (i + 1) eq_refl).
      rewrite length_cons. lia.
Qed.

Lemma py_slice_middle {A} (u m v : list A) :
  py_slice (u ++ m ++ v) (Z.of_nat (length u))
    (Z.of_nat (length u) + Z.of_nat (length m)) = m.
Proof.
  unfold py_slice, clip_index. rewrite !length_app.
  destruct (Z.ltb_spec (Z.of_nat (length u)) 0); [lia|].
  destruct (Z.ltb_spec (Z.of_nat (length u) + Z.of_nat (length m)) 0); [lia|].
  rewrite !Z.min_l by lia.
  replace (Z.to_nat (Z.of_nat (length u) + Z.of_nat (length m)
                     - Z.of_nat (length u))) with (length m) by lia.
  rewrite Nat2Z.id, drop_app_length. apply take_app_length.
Qed.

Lemma history_content_of_written (es : list (pystr * pystr * pystr)) :
  Forall (fun e => entry_safe e = true) es ->
  history_content_of (written_document es)
  = lit "<HISTORY>" ++ [10%N] ++ written_lines es ++ lit "    </HISTORY>".
Proof.
  intros Hsafe. unfold history_content_of, find.
  rewrite (find_from_split _ _ _ _ 0 (written_document_one_closing_tag es Hsafe)).
  assert (Hopen : split_at_sub (lit "<HISTORY>") (written_document es)
                  = Some (document_head,
                          [10%N] ++ written_lines es ++ lit "    </HISTORY>" ++
                          lit "</context>")).
  { unfold written_document.
    rewrite split_at_sub_clear, split_at_sub_here, app_nil_r by reflexivity.
    reflexivity. }
  rewrite (find_from_split _ _ _ _ 0 Hopen).
  replace (written_document es)
    with (document_head ++
          (lit "<HISTORY>" ++ [10%N] ++ written_lines es ++ lit "    </HISTORY>")
          ++ lit "</context>")
    by (unfold written_document; now rewrite <- !app_assoc).
  replace (0 + Z.of_nat (length (document_head ++ lit "<HISTORY>" ++ [10%N] ++
                                 written_lines es ++ lit "    ")) + 10)
    with (Z.of_nat (length document_head) +
          Z.of_nat (length (lit "<HISTORY>" ++ [10%N] ++ written_lines es ++
                            lit "    </HISTORY>"))).
  - rewrite Z.add_0_l. apply py_slice_middle.
  - rewrite !length_app.
    change (length (lit "    </HISTORY>")) with 14%nat.
    change (length (lit "    ")) with 4%nat. lia.
Qed.

Lemma findall_entry_element (e : pystr * pystr * pystr) (rest : pystr) :
  entry_safe e = true ->
  findall_entries (entry_element e ++ rest)
  = (snd (fst e), snd e) :: findall_entries rest.
Proof.
  intros He. destruct (entry_safe_parts e He) as (Ht & Hr & Hc).
  replace (entry_element e ++ rest)
    with (lit "<entry role=" ++ dq ++ snd (fst e) ++ dq ++
          (lit " timestamp=" ++ dq ++ fst (fst e) ++ dq) ++ lit ">" ++ snd e ++
          lit "</entry>" ++ rest)
    by (unfold entry_element; now rewrite <- !app_assoc).
  apply findall_entries_entry; try assumption.
  - rewrite !forallb_app, (attr_safe_not_char 62 _ (or_intror eq_refl) Ht).
    reflexivity.
  - intros x k Hk. now apply timestamp_attribute.
Qed.

Lemma findall_later_lines (es : list (pystr * pystr * pystr)) (tail : pystr) :
  Forall (fun e => entry_safe e = true) es ->
  findall_entries
    (flat_map (fun e' => lit "        " ++ entry_element e' ++ [10%N]) es ++ tail)
  = map (fun e => (snd (fst e), snd e)) es ++ findall_entries tail.
Proof.
  intros Hsafe. induction Hsafe as [|e es He Hes IH]; [reflexivity|].
  cbn [flat_map map]. rewrite <- !app_assoc.
  rewrite findall_entries_clear by reflexivity.
  rewrite findall_entry_element by assumption.
  rewrite findall_entries_clear by reflexivity.
  now rewrite IH.
Qed.

Lemma findall_written_section (es : list (pystr * pystr * pystr)) :
  Forall (fun e => entry_safe e = true) es ->
  findall_entries
    (lit "<HISTORY>" ++ [10%N] ++ written_lines es ++ lit "    </HISTORY>")
  = map (fun e => (snd (fst e), snd e)) es.
Proof.
  intros Hsafe. destruct Hsafe as [|e es He Hes]; [vm_compute; reflexivity|].
  assert (Htail : findall_entries (lit "    </HISTORY>") = [])
    by (vm_compute; reflexivity).
  unfold written_lines. cbn [map].
  replace (lit "<HISTORY>" ++ [10%N] ++
           (lit "    " ++ entry_element e ++ [10%N] ++
            flat_map (fun e' => lit "        " ++ entry_element e' ++ [10%N]) es)
           ++ lit "    </HISTORY>")
    with ((lit "<HISTORY>" ++ [10%N] ++ lit "    ") ++
          entry_element e ++ [10%N] ++
          flat_map (fun e' => lit "        " ++ entry_element e' ++ [10%N]) es
          ++ lit "    </HISTORY>")
    by (now rewrite <- !app_assoc).
  rewrite findall_entries_clear by (vm_compute; reflexivity).
  rewrite findall_entry_element by assumption.
  rewrite findall_entries_clear by (vm_compute; reflexivity).
  rewrite findall_later_lines by assumption.
  now rewrite Htail, app_nil_r.
Qed.

(** Property X16.  The entries appended one after the other to a new
    context file are the entries that the history compressor reads from
    it, in the order of the calls and each with the role and the content
    it was given, when no clock reading and no role holds a double quote,
    [<], [=] or [>] and no content holds [<]. *)
Theorem X16_appended_entries_read_back (env : WriterEnv)
    (es : list (pystr * pystr * pystr)) :
  Forall (fun e => entry_safe e = true) es ->
  findall_entries
    (history_content_of (fold_left (append_history env) es initial_context_xml))
  = map (fun e => (snd (fst e), snd e)) es.
Proof.
  intros Hsafe. destruct es as [|e0 es]; [vm_compute; reflexivity|].
  rewrite appends_to_new_file by assumption.
  rewrite history_content_of_written by assumption.
  now apply findall_written_section.
Qed.

Section Persistence.

Context `{env : WriterEnv}.

(** Property X17.  [add_content_to_section] touches one file only, the
    context file of the user: every other file is as before.  When the
    call returns a document, the context file holds that document; when
    the writer of the section raises, the context file is left as it
    was, or as a new file if there was none. *)
Theorem X17_only_the_context_file_changes (section content role : pystr)
    (user_id : option pystr) (fs : gmap pystr pystr) :
  let path := context_file_path user_id in
  let after := add_content_to_section section content role user_id fs in
  (forall p, p <> path -> fst after !! p = fs !! p) /\
  (forall xml_content, snd after = Ok xml_content ->
     fst after !! path = Some xml_content) /\
  (forall e, snd after = Raise e ->
     fst after !! path = Some (default initial_context_xml (fs !! path))).
Proof.
  intros path after.
  assert (Hinit : forall p, p <> path ->
            initialize_context_file path fs !! p = fs !! p).
  { intros p Hp. unfold initialize_context_file.
    destruct (fs !! path); [reflexivity|]. now rewrite lookup_insert_ne. }
  assert (Hpath : initialize_context_file path fs !! path
                  = Some (default initial_context_xml (fs !! path))).
  { unfold initialize_context_file.
    destruct (fs !! path) eqn:E; [now rewrite E|].
    now rewrite lookup_insert_eq. }
  subst after. unfold add_content_to_section. fold path.
  set (updated := if bool_decide (section = lit "BACKGROUND") then _ else _).
  destruct updated as [xml|e]; cbn [fst snd].
  - split; [|split].
    + intros p Hp. rewrite lookup_insert_ne by congruence. now apply Hinit.
    + intros x [= <-]. now rewrite lookup_insert_eq.
    + intros e [=].
  - split; [|split].
    + exact Hinit.
    + intros x [=].
    + intros e' _. exact Hpath.
Qed.

End Persistence.


